(** * STWDO housing-availability monitor: a shallow embedding of
      [stwdo_housing_alerts.py] and the properties of its routines.

    Layout: Python strings, the parsed document and the CSS query of
    [extract_options]; [build_html_table]; the effectful part
    ([fetch_housing_page], [send_email_alert], [main]) in a state and
    exception monad over an explicit outside world; then the theorems. *)

From Stdlib Require Import Strings.String Strings.Ascii Strings.Byte DecimalString.
From Stdlib Require Import List NArith Arith Bool Lia.
Import ListNotations.

Set Implicit Arguments.
Set Warnings "-register-all".

(* ================================================================== *)
(** ** Python strings *)
(* ================================================================== *)

(** A Python [str] is a sequence of Unicode code points. *)
Definition str := list N.

(** An ASCII literal of the source, as a [str]. *)
Definition lit (s : string) : str :=
  map N_of_ascii (list_ascii_of_string s).

(** The double-quote character, U+0022. *)
Definition dq : str := [34%N].

(** The line feed, U+000A. *)
Definition nl : str := [10%N].

Fixpoint str_eqb (a b : str) : bool :=
  match a, b with
  | [], [] => true
  | x :: a', y :: b' => N.eqb x y && str_eqb a' b'
  | _, _ => false
  end.


(** Truth value of a string in a condition: the empty string is false. *)
Definition truthy (s : str) : bool :=
  match s with [] => false | _ :: _ => true end.

(** Truth value of a list in a condition: the empty list is false. *)
Definition list_truthy {A} (l : list A) : bool :=
  match l with [] => false | _ :: _ => true end.

(** [str.isspace] on one code point: the characters [str.strip()] removes
    when it is called without argument. *)
Definition isspace (c : N) : bool :=
  ((9 <=? c) && (c <=? 13) || (28 <=? c) && (c <=? 32)
   || (c =? 133) || (c =? 160) || (c =? 5760)
   || (8192 <=? c) && (c <=? 8202)
   || (c =? 8232) || (c =? 8233) || (c =? 8239) || (c =? 8287)
   || (c =? 12288))%N.

Fixpoint lstrip (s : str) : str :=
  match s with
  | c :: s' => if isspace c then lstrip s' else s
  | [] => []
  end.

Definition rstrip (s : str) : str := rev (lstrip (rev s)).

(** [s.strip()] *)
Definition strip (s : str) : str := rstrip (lstrip s).

(** ASCII lower-casing, as the selector engine applies it to tag and
    attribute names of an HTML document. *)
Definition lower_char (c : N) : N :=
  if ((65 <=? c) && (c <=? 90))%N then (c + 32)%N else c.

Definition lower (s : str) : str := map lower_char s.

(** [sep.join(parts)] *)
Fixpoint join (sep : str) (parts : list str) : str :=
  match parts with
  | [] => []
  | [p] => p
  | p :: rest => p ++ sep ++ join sep rest
  end.

(** [needle in hay] for strings. *)
Definition contains (needle hay : str) : Prop :=
  exists pre post, hay = pre ++ needle ++ post.


(* ================================================================== *)
(** ** The parsed document *)
(* ================================================================== *)

(** The classes of string nodes of a BeautifulSoup tree. *)
Inductive string_class :=
| NavigableString | CData | Comment | Declaration | Doctype
| ProcessingInstruction | Script | Stylesheet | TemplateString
| RubyTextString | RubyParenthesisString.

(** A node of the tree: a string, or a tag with its attribute dictionary
    (in insertion order) and its contents. *)
Inductive node :=
| Str (cls : string_class) (s : str)
| Tag (name : str) (attrs : list (str * str)) (contents : list node).

(** The [BeautifulSoup] object: the contents of the document root. *)
Definition BeautifulSoup := list node.

(** Induction on a node with the hypothesis on all of its contents. *)
Section NodeInduction.
Variable P : node -> Prop.
Hypothesis HStr : forall c s, P (Str c s).
Hypothesis HTag :
  forall name attrs cs, Forall P cs -> P (Tag name attrs cs).

Fixpoint node_induction (n : node) : P n :=
  match n with
  | Str c s => HStr c s
  | Tag name attrs cs =>
      HTag name attrs
        ((fix all (l : list node) : Forall P l :=
            match l with
            | [] => Forall_nil P
            | x :: l' => Forall_cons x (node_induction x) (all l')
            end) cs)
  end.
End NodeInduction.

(** The string classes that [.text] collects below an ordinary tag. *)
Definition interesting (c : string_class) : bool :=
  match c with
  | NavigableString | CData => true
  | _ => false
  end.

(** [el.text]: the interesting strings below [el], concatenated in
    document order. *)
Fixpoint text (n : node) : str :=
  match n with
  | Str c s => if interesting c then s else []
  | Tag _ _ cs => flat_map text cs
  end.

(** Nodes in document order (a tag before its contents), each with its
    parent; the parent of a top-level node is the document root, which is
    no tag. *)
Fixpoint descendants (parent : option node) (n : node)
  : list (option node * node) :=
  (parent, n) ::
  match n with
  | Str _ _ => []
  | Tag _ _ cs => flat_map (descendants (Some n)) cs
  end.

Definition document_order (soup : BeautifulSoup) : list (option node * node) :=
  flat_map (descendants None) soup.

(** Contents of a node. *)
Definition contents_of (n : node) : list node :=
  match n with
  | Str _ _ => []
  | Tag _ _ cs => cs
  end.

(** Everything strictly below a node, in document order. *)
Definition below (n : node) : list node :=
  map snd (flat_map (descendants (Some n)) (contents_of n)).

(* ================================================================== *)
(** ** The CSS query *)
(* ================================================================== *)

(** Look an attribute up by name; names compare without regard to ASCII
    case in an HTML document. *)
Fixpoint get_attr (attrs : list (str * str)) (a : str) : option str :=
  match attrs with
  | [] => None
  | (k, v) :: rest =>
      if str_eqb (lower a) (lower k) then Some v else get_attr rest a
  end.

Inductive attr_test :=
| HasAttr (a : str)           (* [a]     *)
| AttrEq (a v : str).         (* [a="v"] *)

(** The test the selector engine makes for [[a="v"]]: it matches the
    attribute value against the regular expression [^v$] with [re.match],
    and [$] also matches just before a line feed that ends the value.  So
    the value [v] passes, and so does [v] followed by one line feed. *)
Definition value_matches (v w : str) : bool :=
  str_eqb w v || str_eqb w (v ++ nl).

(** A compound selector: a type selector, attribute tests, and attribute
    tests under [:not(...)]. *)
Record compound := {
  sel_tag : str;
  sel_attrs : list attr_test;
  sel_not : list attr_test
}.

(** The one complex selector needed here, [p > c]: a node matching [c]
    whose parent matches [p]. *)
Inductive selector :=
| Child (p c : compound).

Definition attr_holds (attrs : list (str * str)) (t : attr_test) : bool :=
  match t with
  | HasAttr a => match get_attr attrs a with Some _ => true | None => false end
  | AttrEq a v =>
      match get_attr attrs a with
      | Some w => value_matches v w
      | None => false
      end
  end.

Definition match_compound (c : compound) (n : node) : bool :=
  match n with
  | Str _ _ => false
  | Tag name attrs _ =>
      str_eqb (lower (sel_tag c)) (lower name)
      && forallb (attr_holds attrs) (sel_attrs c)
      && negb (existsb (attr_holds attrs) (sel_not c))
  end.

Definition match_parent (c : compound) (parent : option node) : bool :=
  match parent with
  | Some p => match_compound c p
  | None => false
  end.

(** The selector of [extract_options],
    [select[name="<field_name>"] > option:not([disabled])].
    The source builds the selector text by inserting [field_name] between
    the double quotes.  The text denotes this selector whenever
    [field_name] is [css_plain]: it holds no double quote, no backslash, no
    line feed, carriage return or form feed, and no NUL (which the engine
    replaces by U+FFFD).  Both names [main] passes are.  For other names
    the text may denote another selector or be rejected with
    [SelectorSyntaxError]; what is proved about the selection of
    [extract_options] is proved for [css_plain] names. *)
Definition option_selector_parent (field_name : str) : compound :=
  {| sel_tag := lit "select";
     sel_attrs := [AttrEq (lit "name") field_name];
     sel_not := [] |}.

Definition option_selector_child : compound :=
  {| sel_tag := lit "option";
     sel_attrs := [];
     sel_not := [HasAttr (lit "disabled")] |}.

Definition option_selector (field_name : str) : selector :=
  Child (option_selector_parent field_name) option_selector_child.

(** Field names that stand for themselves inside the double-quoted string
    of the selector text. *)
Definition css_plain (field_name : str) : bool :=
  forallb (fun c => negb ((c =? 34) || (c =? 92) || (c =? 10)
                          || (c =? 13) || (c =? 12) || (c =? 0))%N)
          field_name.

Definition match_selector (sel : selector) (pn : option node * node) : bool :=
  match sel with
  | Child p c => match_parent p (fst pn) && match_compound c (snd pn)
  end.

(** [soup.select(sel)]: the nodes of the document that match, in document
    order. *)
Definition select (soup : BeautifulSoup) (sel : selector) : list node :=
  map snd (filter (match_selector sel) (document_order soup)).

(* ================================================================== *)
(** ** [extract_options] *)
(* ================================================================== *)

(** The placeholder option of the drop-down lists. *)
Definition All : str := lit "All".

(** [[opt.text.strip() for opt in soup.select(selector)]] *)
Definition option_texts (soup : BeautifulSoup) (field_name : str) : list str :=
  map (fun opt => strip (text opt)) (select soup (option_selector field_name)).

(** [opt and opt != "All"] *)
Definition keep_option (opt : str) : bool :=
  truthy opt && negb (str_eqb opt All).

Definition extract_options (soup : BeautifulSoup) (field_name : str)
  : list str :=
  let options := option_texts soup field_name in
  filter keep_option options.




(** Following the words of the specification, not the source: the
    non-disabled [<option>] nodes at any depth below the selects named
    [field_name].  It is compared with [select] below. *)
Definition option_descendants_spec (soup : BeautifulSoup) (field_name : str)
  : list node :=
  flat_map
    (fun pn =>
       if match_compound (option_selector_parent field_name) (snd pn)
       then filter (match_compound option_selector_child) (below (snd pn))
       else [])
    (document_order soup).

(* ================================================================== *)
(** ** Exceptions and results *)
(* ================================================================== *)

(** The exception classes that occur; all are subclasses of [Exception].
    [RequestException] and the four after it are those of [requests]. *)
Inductive exc_type :=
| IndexError | RuntimeError | OSError | UnicodeEncodeError
| ParserRejectedMarkup
| RequestException | ConnectionError | HTTPError | Timeout | TooManyRedirects
| SMTPException | SMTPConnectError | SMTPAuthenticationError
| SMTPRecipientsRefused | SMTPServerDisconnected.

(** An exception: its class, [str(e)], and the exception that was being
    handled when it was raised ([__context__]). *)
Inductive exn :=
| Exn (t : exc_type) (msg : str) (context : option exn).

Definition exn_type (e : exn) : exc_type := let (t, _, _) := e in t.
Definition exn_str (e : exn) : str := let (_, m, _) := e in m.
Definition exn_context (e : exn) : option exn := let (_, _, c) := e in c.

(** [isinstance(e, requests.RequestException)] *)
Definition is_RequestException (e : exn) : bool :=
  match exn_type e with
  | RequestException | ConnectionError | HTTPError | Timeout
  | TooManyRedirects => true
  | _ => false
  end.

(** [isinstance(e, Exception)] *)
Definition is_Exception (e : exn) : bool := true.

Inductive result (A : Type) :=
| Ok (a : A)
| Raise (e : exn).

Arguments Ok {A} a.
Arguments Raise {A} e.

Definition rbind {A B} (r : result A) (k : A -> result B) : result B :=
  match r with
  | Ok a => k a
  | Raise e => Raise e
  end.

Declare Scope result_scope.
Delimit Scope result_scope with result.
Notation "'let?' x ':=' r 'in' k" := (rbind r (fun x => k))
  (at level 10, x name, r at level 100, k at level 200) : result_scope.

(* ================================================================== *)
(** ** [build_html_table] *)
(* ================================================================== *)

(** [l[i]] for [i >= 0]: [IndexError] out of range. *)
Definition getitem (l : list str) (i : nat) : result str :=
  match nth_error l i with
  | Some x => Ok x
  | None => Raise (Exn IndexError (lit "list index out of range") None)
  end.

Definition table_open : str :=
  lit "<table border=" ++ dq ++ lit "1" ++ dq
  ++ lit " cellspacing=" ++ dq ++ lit "0" ++ dq
  ++ lit " cellpadding=" ++ dq ++ lit "5" ++ dq
  ++ lit " style=" ++ dq ++ lit "border-collapse: collapse;" ++ dq
  ++ lit ">".

Definition table_head : str :=
  lit "<thead><tr><th>Cities</th><th>Residential Areas</th></tr></thead>".

Definition tbody_open : str := lit "<tbody>".

Definition table_close : str := lit "</tbody></table>".

(** [f"<tr><td>{city}</td><td>{area}</td></tr>"] *)
Definition render_row (cells : str * str) : str :=
  lit "<tr><td>" ++ fst cells ++ lit "</td><td>" ++ snd cells
  ++ lit "</td></tr>".

Section BuildTable.
Variables cities complexes : list str.
Local Open Scope result_scope.

(** The two conditional expressions of the loop body at index [i]. *)
Definition row_cells (i : nat) : result (str * str) :=
  let? city := (if i <? length cities then getitem cities i else Ok []) in
  let? area :=
    (if i <? length complexes then getitem complexes i else Ok []) in
  Ok (city, area).

(** The [for] loop: one [html.append] per index. *)
Fixpoint append_rows (indices : list nat) (html : list str)
  : result (list str) :=
  match indices with
  | [] => Ok html
  | i :: rest =>
      let? cells := row_cells i in
      append_rows rest (html ++ [render_row cells])
  end.

(** The list [html] when the function reaches its [return]. *)
Definition build_html_lines : result (list str) :=
  let html := [table_open; table_head; tbody_open] in
  let max_len := Nat.max (length cities) (length complexes) in
  let? html := append_rows (seq 0 max_len) html in
  Ok (html ++ [table_close]).

Definition build_html_table : result str :=
  let? html := build_html_lines in
  Ok (join nl html).
End BuildTable.

(* ================================================================== *)
(** ** Configuration *)
(* ================================================================== *)

Definition SMTP_SERVER : str := lit "smtp.gmail.com".
Definition SMTP_PORT : N := 587.

Definition URL : str :=
  lit "https://www.stwdo.de/en/living-houses-application/current-housing-offers".

Definition HEADERS : list (str * str) :=
  [(lit "user-agent",
    lit "Mozilla/5.0 (Windows NT 10.0; Win64; x64) "
    ++ lit "AppleWebKit/537.36 (KHTML, like Gecko) "
    ++ lit "Chrome/140.0.0.0 Safari/537.36")].

Definition CITY_FIELD : str :=
  lit "tx_openimmo_list[tx_openimmo_list][city]".

Definition COMPLEX_FIELD : str :=
  lit "tx_openimmo_list[tx_openimmo_list][residentialComplex]".

(** [os.getenv(key, default)] *)
Definition getenv (environ : str -> option str) (key default : str) : str :=
  match environ key with
  | Some v => v
  | None => default
  end.

(* ================================================================== *)
(** ** The outside world *)
(* ================================================================== *)

(** A naive [datetime], as [datetime.now()] returns it. *)
Record datetime := {
  year : N; month : N; day : N; hour : N; minute : N; second : N;
  microsecond : N
}.

(** An HTTP response as [requests] returns it. *)
Record response := {
  status_code : N;
  reason : str;
  response_url : str;
  content : list byte
}.

Inductive http_outcome :=
| HttpResponse (r : response)
| HttpRaises (e : exn).

(** The message [send_email_alert] composes: a multipart container with
    its headers and its parts (subtype and payload of each). *)
Record email := {
  multipart_subtype : str;
  msg_From : str;
  msg_To : str;
  msg_Subject : str;
  msg_parts : list (str * str)
}.

(** What one [with smtplib.SMTP(...) as server:] block of
    [send_email_alert] hands to the mail system. *)
Record smtp_request := {
  smtp_host : str;
  smtp_port : N;
  login_user : str;
  login_password : str;
  mail_from : str;
  mail_to : str;
  mail_msg : email
}.

Inductive smtp_step := Connect | Starttls | Login | Sendmail | Quit.

(** The block runs to its end, or an exception leaves it at some step. *)
Inductive smtp_outcome :=
| Delivered
| SmtpRaises (step : smtp_step) (e : exn).

(** Everything the program does not decide itself. *)
Record world := {
  environ : str -> option str;
  requests_get : str -> list (str * str) -> N -> http_outcome;
  (* [BeautifulSoup(content, "html.parser")]: the tree, or the exception
     raised for markup the parser rejects *)
  html_parser : list byte -> result BeautifulSoup;
  smtp_server : smtp_request -> smtp_outcome;
  clock : nat -> datetime        (* the n-th reading of [datetime.now()] *)
}.

(** What a run does to the outside, in order. *)
Inductive event :=
| HttpGet (url : str) (headers : list (str * str)) (timeout : N)
| SmtpSession (req : smtp_request)
| Print (line : str).

Record state := {
  trace : list event;
  clock_reads : nat
}.

Definition initial : state := {| trace := []; clock_reads := 0 |}.

(** Computations: they read and extend the state and may raise. *)
Definition M (A : Type) : Type := state -> result A * state.

Definition ret {A} (a : A) : M A := fun s => (Ok a, s).

Definition bind {A B} (c : M A) (k : A -> M B) : M B :=
  fun s =>
    match c s with
    | (Ok a, s') => k a s'
    | (Raise e, s') => (Raise e, s')
    end.

Definition raise {A} (e : exn) : M A := fun s => (Raise e, s).

Definition lift {A} (r : result A) : M A := fun s => (r, s).

(** [try: c  except <class> as e: h e] *)
Definition try_except {A} (c : M A) (catches : exn -> bool)
  (h : exn -> M A) : M A :=
  fun s =>
    match c s with
    | (Ok a, s') => (Ok a, s')
    | (Raise e, s') => if catches e then h e s' else (Raise e, s')
    end.

Definition emit (ev : event) : M unit :=
  fun s => (Ok tt, {| trace := trace s ++ [ev];
                      clock_reads := clock_reads s |}).

Declare Scope monad_scope.
Delimit Scope monad_scope with monad.
Notation "x <- c ;; k" := (bind c (fun x => k))
  (at level 61, c at next level, right associativity) : monad_scope.
Notation "c ;; k" := (bind c (fun _ => k))
  (at level 61, right associativity) : monad_scope.

(* ================================================================== *)
(** ** Time stamps *)
(* ================================================================== *)

(** Decimal digits of a number. *)
Definition dec (n : N) : str := lit (NilZero.string_of_uint (N.to_uint n)).

(** [%0<width>d] *)
Definition zero_pad (width : nat) (n : N) : str :=
  repeat 48%N (width - length (dec n)) ++ dec n.

(** [dt.strftime("[%Y-%m-%d %H:%M:%S]")].  The C library prints [%Y] as
    the year in decimal, without padding; the other fields have two
    digits. *)
Definition strftime (dt : datetime) : str :=
  lit "[" ++ dec (year dt) ++ lit "-" ++ zero_pad 2 (month dt)
  ++ lit "-" ++ zero_pad 2 (day dt) ++ lit " " ++ zero_pad 2 (hour dt)
  ++ lit ":" ++ zero_pad 2 (minute dt) ++ lit ":" ++ zero_pad 2 (second dt)
  ++ lit "]".

(** The number a string of decimal digits stands for; used to read the
    fields of a time stamp back. *)
Definition undigits (s : str) : N :=
  fold_left (fun acc c => (10 * acc + (c - 48))%N) s 0%N.

(** The field values a [datetime] can hold, with a four-digit year. *)
Definition four_digit_year (dt : datetime) : Prop :=
  (1000 <= year dt <= 9999)%N /\ (1 <= month dt <= 12)%N
  /\ (1 <= day dt <= 31)%N /\ (hour dt <= 23)%N /\ (minute dt <= 59)%N
  /\ (second dt <= 59)%N.

(* ================================================================== *)
(** ** The program *)
(* ================================================================== *)

(** [response.raise_for_status()]: an [HTTPError] for the client and
    server error statuses, 400 to 599, and nothing otherwise. *)
Definition raise_for_status (r : response) : result unit :=
  let http_error kind :=
    Raise (Exn HTTPError
             (dec (status_code r) ++ lit " " ++ kind ++ lit " Error: "
              ++ reason r ++ lit " for url: " ++ response_url r) None) in
  if ((400 <=? status_code r) && (status_code r <? 500))%N
  then http_error (lit "Client")
  else if ((500 <=? status_code r) && (status_code r <? 600))%N
  then http_error (lit "Server")
  else Ok tt.

(** The body of the message, with the table in its place. *)
Definition email_body (html_table : str) : str :=
  nl ++ lit "    <html>"
  ++ nl ++ lit "      <body>"
  ++ nl ++ lit "        <p>Changes detected in STWDO housing availability:</p>"
  ++ nl ++ lit "        <p>"
  ++ nl ++ lit "          Link: <a href=" ++ dq ++ URL ++ dq
        ++ lit ">STWDO Housing Offers</a>"
  ++ nl ++ lit "        </p>"
  ++ nl ++ lit "        " ++ html_table
  ++ nl ++ lit "      </body>"
  ++ nl ++ lit "    </html>"
  ++ nl ++ lit "    ".

(** The subject starts with U+1F6A8. *)
Definition email_subject : str :=
  [128680%N] ++ lit " STWDO Housing Availability Changed!".

(** A surrogate code point, U+D800 to U+DFFF; UTF-8 does not encode it. *)
Definition is_surrogate (c : N) : bool := ((55296 <=? c) && (c <=? 57343))%N.

(** [s.encode("utf-8")] succeeds. *)
Definition utf8_encodable (s : str) : bool :=
  forallb (fun c => negb (is_surrogate c)) s.

Definition hex_digit (d : N) : N :=
  if (d <? 10)%N then (48 + d)%N else (87 + d)%N.

(** [%04x] of a code point below 65536. *)
Definition hex4 (c : N) : str :=
  map hex_digit [(c / 4096) mod 16; (c / 256) mod 16; (c / 16) mod 16;
                 c mod 16]%N.

(** Number of surrogates at the head of a string. *)
Fixpoint surrogate_run (s : str) : N :=
  match s with
  | c :: s' => if is_surrogate c then N.succ (surrogate_run s') else 0%N
  | [] => 0%N
  end.

(** The exception of [s.encode("utf-8")], if any: it reports the first
    run of surrogates; [position] is the index of the head of [s]. *)
Fixpoint utf8_encode_error (s : str) (position : N) : option exn :=
  match s with
  | [] => None
  | c :: s' =>
      if is_surrogate c
      then
        let stop := (position + surrogate_run s)%N in
        Some (Exn UnicodeEncodeError
                (if (stop =? position + 1)%N
                 then lit "'utf-8' codec can't encode character '\u"
                      ++ hex4 c ++ lit "' in position " ++ dec position
                      ++ lit ": surrogates not allowed"
                 else lit "'utf-8' codec can't encode characters in position "
                      ++ dec position ++ lit "-" ++ dec (stop - 1)
                      ++ lit ": surrogates not allowed")
                None)
      else utf8_encode_error s' (N.succ position)
  end.

(** [MIMEText(text, subtype)]: the part (its subtype and payload), or the
    [UnicodeEncodeError] of encoding the text, which is tried as ASCII and
    then as UTF-8. *)
Definition MIMEText (text subtype : str) : result (str * str) :=
  match utf8_encode_error text 0 with
  | Some e => Raise e
  | None => Ok (subtype, text)
  end.

Section Program.
Variable w : world.
Local Open Scope monad_scope.

Definition EMAIL_USER : str :=
  getenv (environ w) (lit "EMAIL_USER") (lit "example@gmail.com").
Definition EMAIL_PASSWORD : str :=
  getenv (environ w) (lit "EMAIL_PASSWORD") (lit "xxxxxxxxxxxx").
Definition TO_EMAIL : str :=
  getenv (environ w) (lit "TO_EMAIL") (lit "recipient@example.com").

(** [datetime.now()] *)
Definition now : M datetime :=
  fun s => (Ok (clock w (clock_reads s)),
            {| trace := trace s; clock_reads := S (clock_reads s) |}).

Definition get_timestamp : M str :=
  dt <- now ;;
  ret (strftime dt).

Definition print (line : str) : M unit := emit (Print line).

(** [requests.get(url, headers=headers, timeout=timeout)] *)
Definition get (url : str) (headers : list (str * str)) (timeout : N)
  : M response :=
  emit (HttpGet url headers timeout) ;;
  match requests_get w url headers timeout with
  | HttpResponse r => ret r
  | HttpRaises e => raise e
  end.

Definition fetch_housing_page (url : str) : M BeautifulSoup :=
  response <-
    try_except
      (response <- get url HEADERS 15 ;;
       lift (raise_for_status response) ;;
       ret response)
      is_RequestException
      (fun e =>
         raise (Exn RuntimeError (lit "Failed to fetch page: " ++ exn_str e)
                    (Some e))) ;;
  lift (html_parser w (content response)).

(** The [with smtplib.SMTP(...)] block: connect, [starttls], [login],
    [sendmail], and the closing of the connection. *)
Definition smtp_session (req : smtp_request) : M unit :=
  emit (SmtpSession req) ;;
  match smtp_server w req with
  | Delivered => ret tt
  | SmtpRaises _ e => raise e
  end.

(** The multipart message with its headers and one part attached. *)
Definition message_with (part : str * str) : email :=
  {| multipart_subtype := lit "alternative";
     msg_From := EMAIL_USER;
     msg_To := TO_EMAIL;
     msg_Subject := email_subject;
     msg_parts := [part] |}.

(** The message built before the [try]; [MIMEText] may raise. *)
Definition compose_message (html_table : str) : result email :=
  let body := email_body html_table in
  rbind (MIMEText body (lit "html")) (fun part => Ok (message_with part)).

(** The arguments of the calls inside the [with] block. *)
Definition smtp_request_for (msg : email) : smtp_request :=
  {| smtp_host := SMTP_SERVER;
     smtp_port := SMTP_PORT;
     login_user := EMAIL_USER;
     login_password := EMAIL_PASSWORD;
     mail_from := EMAIL_USER;
     mail_to := TO_EMAIL;
     mail_msg := msg |}.

(** The request made for a table whose message can be built. *)
Definition alert_request (html_table : str) : smtp_request :=
  smtp_request_for (message_with (lit "html", email_body html_table)).

Definition send_email_alert (html_table : str) : M unit :=
  msg <- lift (compose_message html_table) ;;
  try_except
    (smtp_session (smtp_request_for msg) ;;
     ts <- get_timestamp ;;
     print (ts ++ lit " Email alert sent!"))
    is_Exception
    (fun e =>
       ts <- get_timestamp ;;
       print (ts ++ lit " Failed to send email: " ++ exn_str e)).

Definition main : M unit :=
  soup <- fetch_housing_page URL ;;
  let cities := extract_options soup CITY_FIELD in
  let complexes := extract_options soup COMPLEX_FIELD in
  if list_truthy cities || list_truthy complexes
  then
    html_table <- lift (build_html_table cities complexes) ;;
    send_email_alert html_table
  else
    ts <- get_timestamp ;;
    print (ts ++ lit " No housing availability detected.").
End Program.

(** A whole run: [main] from the initial state. *)
Definition run (w : world) : result unit * state := main w initial.


(** ** Observations on a trace *)

Definition smtp_requests (t : list event) : list smtp_request :=
  flat_map (fun ev => match ev with SmtpSession r => [r] | _ => [] end) t.

Definition printed (t : list event) : list str :=
  flat_map (fun ev => match ev with Print l => [l] | _ => [] end) t.

(** A line that starts with a time stamp, then a space, then the text. *)
Definition timestamped (line message : str) : Prop :=
  exists dt, line = strftime dt ++ lit " " ++ message.

(** The fetch fails with [cause]: [requests.get] raises one of its own
    exceptions (no connection, time-out, ...), or the response carries a
    client or server error status and [raise_for_status] raises. *)
Inductive fetch_fails (w : world) : exn -> Prop :=
| transport_failure (e : exn) :
    requests_get w URL HEADERS 15 = HttpRaises e ->
    is_RequestException e = true ->
    fetch_fails w e
| error_status (r : response) (e : exn) :
    requests_get w URL HEADERS 15 = HttpResponse r ->
    (400 <= status_code r < 600)%N ->
    raise_for_status r = Raise e ->
    fetch_fails w e.

(** The exception [fetch_housing_page] raises for the failure [cause]. *)
Definition fetch_error (cause : exn) : exn :=
  Exn RuntimeError (lit "Failed to fetch page: " ++ exn_str cause) (Some cause).

(* ================================================================== *)
(** ** Sample documents and worlds *)
(* ================================================================== *)

Module Samples.

(** [<option ...>label</option>] *)
Definition option_tag (attrs : list (str * str)) (label : string) : node :=
  Tag (lit "option") attrs [Str NavigableString (lit label)].

(** [<select name="...">...</select>] *)
Definition select_tag (field_name : str) (cs : list node) : node :=
  Tag (lit "select") [(lit "name", field_name)] cs.

(** A page with both drop-down lists; the first has the placeholder
    (once padded with blanks), a disabled option, a blank one, and the
    same city twice. *)
Definition offers_page : BeautifulSoup :=
  [Tag (lit "html") []
     [Tag (lit "body") []
        [select_tag CITY_FIELD
           [option_tag [] "All";
            option_tag [] "  Dortmund ";
            option_tag [(lit "disabled", lit "disabled")] "Bochum";
            option_tag [] "   ";
            option_tag [] "  All ";
            option_tag [] "Hagen";
            option_tag [] "Dortmund"];
         select_tag COMPLEX_FIELD
           [option_tag [] "All";
            option_tag [] "Emil-Figge-Str. 3"]]]].

(** A page whose lists offer the placeholder only. *)
Definition empty_page : BeautifulSoup :=
  [Tag (lit "html") []
     [select_tag CITY_FIELD [option_tag [] "All"];
      select_tag COMPLEX_FIELD [option_tag [] "All"]]].


(** An enabled option inside an option group of the city list. *)
Definition grouped_option : node := option_tag [] "Dortmund".

Definition grouped_select : node :=
  select_tag CITY_FIELD
    [Tag (lit "optgroup") [(lit "label", lit "NRW")] [grouped_option]].

Definition grouped_page : BeautifulSoup := [grouped_select].

Definition noon : datetime :=
  {| year := 2025; month := 9; day := 7; hour := 12; minute := 0;
     second := 5; microsecond := 0 |}.

(** A quarter of a second later. *)
Definition noon_and_a_quarter : datetime :=
  {| year := 2025; month := 9; day := 7; hour := 12; minute := 0;
     second := 5; microsecond := 250000 |}.

Definition ok_response : response :=
  {| status_code := 200; reason := lit "OK"; response_url := URL;
     content := [] |}.

Definition not_found : response :=
  {| status_code := 404; reason := lit "Not Found"; response_url := URL;
     content := [] |}.

Definition multiple_choices : response :=
  {| status_code := 300; reason := lit "Multiple Choices";
     response_url := URL; content := [] |}.


(** A world that answers with [r], parses every page to [page], and whose
    mail system behaves as [smtp]. *)
Definition world_of (r : http_outcome) (page : BeautifulSoup)
  (smtp : smtp_outcome) : world :=
  {| environ := fun _ => None;
     requests_get := fun _ _ _ => r;
     html_parser := fun _ => Ok page;
     smtp_server := fun _ => smtp;
     clock := fun _ => noon |}.

Definition offers_world : world :=
  world_of (HttpResponse ok_response) offers_page Delivered.

Definition quiet_world : world :=
  world_of (HttpResponse ok_response) empty_page Delivered.


Definition not_found_world : world :=
  world_of (HttpResponse not_found) offers_page Delivered.

Definition multiple_choices_world : world :=
  world_of (HttpResponse multiple_choices) offers_page Delivered.




(** A world whose parser rejects the page. *)
Definition rejecting_world : world :=
  {| environ := fun _ => None;
     requests_get := fun _ _ _ => HttpResponse ok_response;
     html_parser :=
       fun _ => Raise (Exn ParserRejectedMarkup
                           (lit "expected name token at '<![foo bar]>'") None);
     smtp_server := fun _ => Delivered;
     clock := fun _ => noon |}.

End Samples.

(* ================================================================== *)
(** ** Strings: equality and stripping *)
(* ================================================================== *)

Lemma str_eqb_eq (a b : str) : str_eqb a b = true <-> a = b.
Proof.
  revert b; induction a as [|x a IH]; intros [|y b]; simpl;
    try (split; [discriminate | discriminate]); [tauto|].
  rewrite andb_true_iff, N.eqb_eq, IH.
  split; [intros [-> ->]; reflexivity | intros [= -> ->]; auto].
Qed.

Lemma str_eqb_refl (a : str) : str_eqb a a = true.
Proof. apply str_eqb_eq; reflexivity. Qed.

Lemma str_eqb_neq (a b : str) : str_eqb a b = false <-> a <> b.
Proof.
  rewrite <- str_eqb_eq. destruct (str_eqb a b); split; congruence.
Qed.

(** After [lstrip] nothing is left or the first character is no space. *)
Lemma lstrip_head (s : str) :
  lstrip s = [] \/ exists c t, lstrip s = c :: t /\ isspace c = false.
Proof.
  induction s as [|c s IH]; simpl; [left; reflexivity|].
  destruct (isspace c) eqn:E; [exact IH|].
  right; exists c, s; split; [reflexivity | exact E].
Qed.

Lemma lstrip_suffix (s : str) : exists pre, s = pre ++ lstrip s
                                            /\ forallb isspace pre = true.
Proof.
  induction s as [|c s [pre [E F]]]; simpl.
  - exists []; split; reflexivity.
  - destruct (isspace c) eqn:Ec.
    + exists (c :: pre); simpl; rewrite Ec, F; split; [congruence | reflexivity].
    + exists []; split; reflexivity.
Qed.

(** [strip] leaves the empty string or a string that starts and ends with
    a character that is no space. *)
Lemma strip_ends (s : str) :
  strip s = [] \/
  exists c t, rev (strip s) = c :: t /\ isspace c = false.
Proof.
  unfold strip, rstrip. rewrite rev_involutive.
  destruct (lstrip_head (rev (lstrip s))) as [E | (c & t & E & Hc)].
  - left. rewrite E. reflexivity.
  - right. exists c, t. split; assumption.
Qed.



(** The first character left by [strip] is no space either. *)
Lemma strip_first (s : str) c t : strip s = c :: t -> isspace c = false.
Proof.
  unfold strip, rstrip. intros E.
  destruct (lstrip_head s) as [E0 | (c0 & t0 & E0 & Hc0)].
  - rewrite E0 in E. discriminate.
  - rewrite E0 in E.
    destruct (lstrip_suffix (rev (c0 :: t0))) as (pre & Epre & _).
    apply (f_equal (@rev N)) in Epre.
    rewrite rev_involutive, rev_app_distr, E in Epre.
    simpl in Epre. injection Epre as -> _. exact Hc0.
Qed.

Lemma keep_option_spec (t : str) :
  keep_option t = true <-> t <> [] /\ t <> All.
Proof.
  unfold keep_option. rewrite andb_true_iff, negb_true_iff, str_eqb_neq.
  destruct t; simpl; split; intros [H1 H2]; split; congruence.
Qed.

(* ================================================================== *)
(** ** The document walk *)
(* ================================================================== *)

(** An entry of the walk below [n] is [n] itself, or a node with its
    parent, and the parent is in the walk too. *)
Lemma descendants_parent (n : node) :
  forall p x m, In (x, m) (descendants p n) ->
    (x = p /\ m = n) \/
    exists q, x = Some q /\ In m (contents_of q)
              /\ exists p', In (p', q) (descendants p n).
Proof.
  induction n as [c s | name attrs cs IH] using node_induction;
    intros p x m H; simpl in H.
  - destruct H as [[= <- <-] | []]. left; split; reflexivity.
  - destruct H as [[= <- <-] | H]; [left; split; reflexivity|].
    right. apply in_flat_map in H. destruct H as (k & Hk & H).
    rewrite Forall_forall in IH.
    destruct (IH k Hk _ _ _ H) as [[-> ->] | (q & -> & Hm & p' & Hq)].
    + exists (Tag name attrs cs). split; [reflexivity|].
      split; [exact Hk|]. exists p. simpl. left; reflexivity.
    + exists q. split; [reflexivity|]. split; [exact Hm|].
      exists p'. simpl. right. apply in_flat_map. exists k; split; assumption.
Qed.

(** The contents of a node of the walk follow it, with that node as their
    parent. *)
Lemma descendants_child (n : node) :
  forall p p' q m, In (p', q) (descendants p n) -> In m (contents_of q) ->
    In (Some q, m) (descendants p n).
Proof.
  induction n as [c s | name attrs cs IH] using node_induction;
    intros p p' q m H Hm; simpl in H.
  - destruct H as [[= <- <-] | []]. destruct Hm.
  - simpl. right. apply in_flat_map.
    destruct H as [[= <- <-] | H].
    + exists m. split; [exact Hm|]. destruct m; simpl; left; reflexivity.
    + apply in_flat_map in H. destruct H as (k & Hk & H).
      rewrite Forall_forall in IH.
      exists k. split; [exact Hk|]. exact (IH k Hk _ _ _ _ H Hm).
Qed.

Lemma document_order_child (soup : BeautifulSoup) (q m : node) :
  In (Some q, m) (document_order soup) <->
  (exists p, In (p, q) (document_order soup)) /\ In m (contents_of q).
Proof.
  unfold document_order. split.
  - intros H. apply in_flat_map in H. destruct H as (k & Hk & H).
    destruct (descendants_parent _ _ _ _ H)
      as [[[=] _] | (q' & [= <-] & Hm & p' & Hq)].
    split; [|exact Hm]. exists p'. apply in_flat_map. exists k; split; assumption.
  - intros [[p H] Hm]. apply in_flat_map in H. destruct H as (k & Hk & H).
    apply in_flat_map. exists k. split; [exact Hk|].
    exact (descendants_child _ _ _ _ _ H Hm).
Qed.

(** What [select] returns for the selector of [extract_options]. *)
Lemma select_option_selector (soup : BeautifulSoup) (field_name : str)
  (opt : node) :
  In opt (select soup (option_selector field_name)) <->
  exists p sel,
    In (p, sel) (document_order soup)
    /\ match_compound (option_selector_parent field_name) sel = true
    /\ In opt (contents_of sel)
    /\ match_compound option_selector_child opt = true.
Proof.
  unfold select. rewrite in_map_iff. split.
  - intros ([x m] & E & H). simpl in E. subst m.
    apply filter_In in H. destruct H as [H Hm]. simpl in Hm.
    apply andb_true_iff in Hm. destruct Hm as [Hp Hc].
    destruct x as [q|]; [|discriminate]. simpl in Hp.
    apply document_order_child in H. destruct H as [[p H] Hin].
    exists p, q. repeat split; assumption.
  - intros (p & sel & H & Hp & Hin & Hc).
    exists (Some sel, opt). split; [reflexivity|].
    apply filter_In. split.
    + apply document_order_child. split; [exists p; exact H | exact Hin].
    + simpl. rewrite Hp, Hc. reflexivity.
Qed.

(* ================================================================== *)
(** ** [extract_options] *)
(* ================================================================== *)

Lemma main_field_names_plain :
  css_plain CITY_FIELD = true /\ css_plain COMPLEX_FIELD = true.
Proof. split; reflexivity. Qed.

Lemma extract_options_In (soup : BeautifulSoup) (field_name t : str) :
  In t (extract_options soup field_name) <->
  In t (option_texts soup field_name) /\ t <> [] /\ t <> All.
Proof.
  unfold extract_options. rewrite filter_In, keep_option_spec. tauto.
Qed.


Lemma str_eqb_sym (a b : str) : str_eqb a b = str_eqb b a.
Proof.
  destruct (str_eqb a b) eqn:E; symmetry.
  - apply str_eqb_eq in E. subst. apply str_eqb_refl.
  - apply str_eqb_neq. apply str_eqb_neq in E. congruence.
Qed.









Lemma match_parent_compound_spec (field_name : str) (n : node) :
  match_compound (option_selector_parent field_name) n = true <->
  exists sname sattrs scs v,
    n = Tag sname sattrs scs
    /\ lower sname = lit "select"
    /\ get_attr sattrs (lit "name") = Some v
    /\ (v = field_name \/ v = field_name ++ nl).
Proof.
  destruct n as [c s | sname sattrs scs].
  - split; [discriminate | intros (? & ? & ? & ? & [=] & _)].
  - cbn [match_compound option_selector_parent sel_tag sel_attrs sel_not
         forallb existsb attr_holds value_matches].
    rewrite (str_eqb_sym _ (lower sname)).
    change (lower (lit "select")) with (lit "select").
    rewrite andb_true_r.
    change (negb false) with true. rewrite andb_true_r.
    rewrite andb_true_iff, str_eqb_eq. split.
    + intros [Hn Ha].
      destruct (get_attr sattrs (lit "name")) as [v|] eqn:Eg; [|discriminate].
      apply orb_true_iff in Ha. rewrite !str_eqb_eq in Ha.
      exists sname, sattrs, scs, v. repeat split; assumption.
    + intros (? & ? & ? & v & [= <- <- <-] & Hn & Ha & Hv).
      rewrite Ha. split; [exact Hn|].
      apply orb_true_iff. rewrite !str_eqb_eq. exact Hv.
Qed.

Lemma match_child_compound_spec (n : node) :
  match_compound option_selector_child n = true <->
  exists oname oattrs ocs,
    n = Tag oname oattrs ocs
    /\ lower oname = lit "option"
    /\ get_attr oattrs (lit "disabled") = None.
Proof.
  destruct n as [c s | oname oattrs ocs].
  - split; [discriminate | intros (? & ? & ? & [=] & _)].
  - cbn [match_compound option_selector_child sel_tag sel_attrs sel_not
         forallb existsb attr_holds].
    rewrite (str_eqb_sym _ (lower oname)).
    change (lower (lit "option")) with (lit "option").
    rewrite andb_true_r, orb_false_r.
    rewrite andb_true_iff, str_eqb_eq, negb_true_iff. split.
    + intros [Hn Ha].
      destruct (get_attr oattrs (lit "disabled")) eqn:Eg; [discriminate|].
      exists oname, oattrs, ocs. repeat split; assumption.
    + intros (? & ? & ? & [= <- <- <-] & Hn & Ha).
      rewrite Ha. split; [exact Hn | reflexivity].
Qed.

(** C4, as the code has it: for a field name that stands for itself in the
    selector text, the options selected are the [<option>] tags without a
    [disabled] attribute that are direct contents of a [<select>] tag whose
    [name] attribute is the given name (or the given name and a line feed),
    and no others; each contributes its trimmed text to the list that is
    then filtered. *)
Theorem option_texts_direct_children (soup : BeautifulSoup)
  (field_name t : str) :
  css_plain field_name = true ->
  (In t (option_texts soup field_name) <->
   exists p sname sattrs scs v oname oattrs ocs,
     In (p, Tag sname sattrs scs) (document_order soup)
     /\ lower sname = lit "select"
     /\ get_attr sattrs (lit "name") = Some v
     /\ (v = field_name \/ v = field_name ++ nl)
     /\ In (Tag oname oattrs ocs) scs
     /\ lower oname = lit "option"
     /\ get_attr oattrs (lit "disabled") = None
     /\ t = strip (text (Tag oname oattrs ocs))).
Proof.
  intros _. unfold option_texts. rewrite in_map_iff. split.
  - intros (opt & <- & H). apply select_option_selector in H.
    destruct H as (p & sel & H1 & H2 & H3 & H4).
    apply match_parent_compound_spec in H2.
    destruct H2 as (sname & sattrs & scs & v & -> & Hs & Hv & Hm).
    apply match_child_compound_spec in H4.
    destruct H4 as (oname & oattrs & ocs & -> & Ho & Hd).
    exists p, sname, sattrs, scs, v, oname, oattrs, ocs.
    repeat split; assumption.
  - intros (p & sname & sattrs & scs & v & oname & oattrs & ocs
            & H1 & Hs & Hv & Hm & H3 & Ho & Hd & ->).
    exists (Tag oname oattrs ocs). split; [reflexivity|].
    apply select_option_selector.
    exists p, (Tag sname sattrs scs). split; [exact H1|]. split.
    + apply match_parent_compound_spec.
      exists sname, sattrs, scs, v. repeat split; assumption.
    + split; [exact H3|]. apply match_child_compound_spec.
      exists oname, oattrs, ocs. repeat split; assumption.
Qed.

Lemma option_texts_direct_children_witness :
  In (lit "Hagen") (option_texts Samples.offers_page CITY_FIELD)
  /\ (In (lit "Hagen") (option_texts Samples.offers_page CITY_FIELD) <->
      exists p sname sattrs scs v oname oattrs ocs,
        In (p, Tag sname sattrs scs) (document_order Samples.offers_page)
        /\ lower sname = lit "select"
        /\ get_attr sattrs (lit "name") = Some v
        /\ (v = CITY_FIELD \/ v = CITY_FIELD ++ nl)
        /\ In (Tag oname oattrs ocs) scs
        /\ lower oname = lit "option"
        /\ get_attr oattrs (lit "disabled") = None
        /\ lit "Hagen" = strip (text (Tag oname oattrs ocs))).
Proof.
  split.
  - vm_compute. do 4 right. left. reflexivity.
  - apply (@option_texts_direct_children Samples.offers_page CITY_FIELD
             (lit "Hagen")).
    reflexivity.
Defined.

(** C4, as stated, fails: an enabled option inside an [<optgroup>] of the
    city list lies below the select, yet it is not selected and its text
    is not extracted. *)
Lemma nested_option_not_selected :
  In (None, Samples.grouped_select) (document_order Samples.grouped_page)
  /\ match_compound (option_selector_parent CITY_FIELD) Samples.grouped_select
     = true
  /\ In Samples.grouped_option (below Samples.grouped_select)
  /\ match_compound option_selector_child Samples.grouped_option = true
  /\ option_descendants_spec Samples.grouped_page CITY_FIELD
     = [Samples.grouped_option]
  /\ strip (text Samples.grouped_option) = lit "Dortmund"
  /\ select Samples.grouped_page (option_selector CITY_FIELD) = []
  /\ ~ In (strip (text Samples.grouped_option))
          (option_texts Samples.grouped_page CITY_FIELD)
  /\ extract_options Samples.grouped_page CITY_FIELD = [].
Proof.
  repeat split; try (vm_compute; reflexivity).
  - left; reflexivity.
  - right; left; reflexivity.
  - intros H; vm_compute in H; exact H.
Qed.





(** C10: an option whose text trims to ["All"] is left out, whatever white
    space surrounds the word in the raw text: the result is the one the
    other selected options give, and ["All"] is never in it. *)
Theorem trimmed_All_excluded (soup : BeautifulSoup) (field_name : str)
  (before : list node) (opt : node) (after : list node) :
  select soup (option_selector field_name) = before ++ opt :: after ->
  strip (text opt) = All ->
  extract_options soup field_name
  = filter keep_option (map (fun o => strip (text o)) (before ++ after))
  /\ ~ In All (extract_options soup field_name).
Proof.
  intros E HAll. split.
  - unfold extract_options, option_texts. rewrite E.
    rewrite !map_app, !filter_app. simpl. rewrite HAll.
    reflexivity.
  - intros H. apply extract_options_In in H. destruct H as (_ & _ & H).
    apply H; reflexivity.
Qed.

Lemma trimmed_All_excluded_witness :
  text (Samples.option_tag [] "  All ") = lit "  All "
  /\ extract_options Samples.offers_page CITY_FIELD
     = [lit "Dortmund"; lit "Hagen"; lit "Dortmund"]
  /\ extract_options Samples.offers_page CITY_FIELD
     = filter keep_option
         (map (fun o => strip (text o))
            ([Samples.option_tag [] "All";
              Samples.option_tag [] "  Dortmund ";
              Samples.option_tag [] "   "]
             ++ [Samples.option_tag [] "Hagen";
                 Samples.option_tag [] "Dortmund"]))
  /\ ~ In All (extract_options Samples.offers_page CITY_FIELD).
Proof.
  split; [reflexivity|]. split; [reflexivity|].
  apply (trimmed_All_excluded Samples.offers_page CITY_FIELD
           [Samples.option_tag [] "All";
            Samples.option_tag [] "  Dortmund ";
            Samples.option_tag [] "   "]
           (Samples.option_tag [] "  All ")
           [Samples.option_tag [] "Hagen";
            Samples.option_tag [] "Dortmund"]);
    reflexivity.
Defined.

(* ================================================================== *)
(** ** [build_html_table] *)
(* ================================================================== *)

Section TableFacts.
Variables cities complexes : list str.

Lemma getitem_in_bounds (l : list str) (i : nat) :
  i < length l -> getitem l i = Ok (nth i l []).
Proof.
  intros H. unfold getitem. rewrite (nth_error_nth' l [] H). reflexivity.
Qed.

Lemma guarded_getitem (l : list str) (i : nat) :
  (if i <? length l then getitem l i else Ok []) = Ok (nth i l []).
Proof.
  destruct (i <? length l) eqn:E.
  - apply Nat.ltb_lt in E. apply getitem_in_bounds; exact E.
  - apply Nat.ltb_ge in E. rewrite nth_overflow by exact E. reflexivity.
Qed.

Lemma row_cells_ok (i : nat) :
  row_cells cities complexes i = Ok (nth i cities [], nth i complexes []).
Proof.
  unfold row_cells. rewrite !guarded_getitem. reflexivity.
Qed.

Lemma append_rows_ok (indices : list nat) :
  forall html,
    append_rows cities complexes indices html
    = Ok (html ++ map render_row
                    (map (fun i => (nth i cities [], nth i complexes []))
                         indices)).
Proof.
  induction indices as [|i rest IH]; intros html; simpl.
  - rewrite app_nil_r. reflexivity.
  - rewrite row_cells_ok. simpl. rewrite IH, <- app_assoc. reflexivity.
Qed.

Lemma build_html_lines_ok :
  build_html_lines cities complexes
  = Ok ([table_open; table_head; tbody_open]
        ++ map render_row
             (map (fun i => (nth i cities [], nth i complexes []))
                  (seq 0 (Nat.max (length cities) (length complexes))))
        ++ [table_close]).
Proof.
  unfold build_html_lines. rewrite append_rows_ok. simpl. reflexivity.
Qed.

Lemma build_html_table_ok :
  build_html_table cities complexes
  = Ok (join nl
          ([table_open; table_head; tbody_open]
           ++ map render_row
                (map (fun i => (nth i cities [], nth i complexes []))
                     (seq 0 (Nat.max (length cities) (length complexes))))
           ++ [table_close])).
Proof.
  unfold build_html_table. rewrite build_html_lines_ok. reflexivity.
Qed.
End TableFacts.

(** C5: the table has exactly [n = max(len(cities), len(complexes))] body
    rows between its three opening lines and its closing line; row [i] is
    the two-column row [<tr><td>city</td><td>area</td></tr>] of the elements
    at index [i], with the empty string where a list is too short.  Two
    empty lists give the header and no body row, and [["A","B"]] with
    [["X"]] gives the rows [("A","X")] and [("B","")]. *)
Theorem build_html_table_rows (cities complexes : list str) :
  let n := Nat.max (length cities) (length complexes) in
  let rows := map (fun i => (nth i cities [], nth i complexes [])) (seq 0 n) in
  build_html_lines cities complexes
  = Ok ([table_open; table_head; tbody_open] ++ map render_row rows
        ++ [table_close])
  /\ build_html_table cities complexes
     = Ok (join nl ([table_open; table_head; tbody_open]
                    ++ map render_row rows ++ [table_close]))
  /\ (forall city area,
        render_row (city, area)
        = lit "<tr><td>" ++ city ++ lit "</td><td>" ++ area
          ++ lit "</td></tr>")
  /\ length rows = n
  /\ (forall i, i < n ->
        nth_error rows i = Some (nth i cities [], nth i complexes []))
  /\ build_html_lines [] []
     = Ok [table_open; table_head; tbody_open; table_close]
  /\ build_html_lines [lit "A"; lit "B"] [lit "X"]
     = Ok [table_open; table_head; tbody_open;
           render_row (lit "A", lit "X"); render_row (lit "B", []);
           table_close]
  /\ build_html_table [] []
     = Ok (lit "<table border=" ++ dq ++ lit "1" ++ dq
           ++ lit " cellspacing=" ++ dq ++ lit "0" ++ dq
           ++ lit " cellpadding=" ++ dq ++ lit "5" ++ dq
           ++ lit " style=" ++ dq ++ lit "border-collapse: collapse;" ++ dq
           ++ lit ">" ++ nl
           ++ lit "<thead><tr><th>Cities</th><th>Residential Areas</th></tr></thead>"
           ++ nl ++ lit "<tbody>" ++ nl ++ lit "</tbody></table>")
  /\ build_html_table [lit "A"; lit "B"] [lit "X"]
     = Ok (lit "<table border=" ++ dq ++ lit "1" ++ dq
           ++ lit " cellspacing=" ++ dq ++ lit "0" ++ dq
           ++ lit " cellpadding=" ++ dq ++ lit "5" ++ dq
           ++ lit " style=" ++ dq ++ lit "border-collapse: collapse;" ++ dq
           ++ lit ">" ++ nl
           ++ lit "<thead><tr><th>Cities</th><th>Residential Areas</th></tr></thead>"
           ++ nl ++ lit "<tbody>" ++ nl
           ++ lit "<tr><td>A</td><td>X</td></tr>" ++ nl
           ++ lit "<tr><td>B</td><td></td></tr>" ++ nl
           ++ lit "</tbody></table>").
Proof.
  intros n rows.
  split; [apply build_html_lines_ok|].
  split; [apply build_html_table_ok|].
  split; [reflexivity|].
  split; [unfold rows; rewrite length_map, length_seq; reflexivity|].
  split.
  { intros i Hi. unfold rows.
    rewrite nth_error_map, nth_error_seq.
    apply Nat.ltb_lt in Hi. rewrite Hi. reflexivity. }
  repeat split.
Qed.

(** C9: [build_html_table] is total.  It returns a string for every pair of
    lists and never raises; at every index each list is read only under
    its bound check, and a read under the check succeeds. *)
Theorem build_html_table_total (cities complexes : list str) :
  (exists html, build_html_table cities complexes = Ok html)
  /\ (forall e, build_html_table cities complexes <> Raise e)
  /\ (forall i,
        ((i <? length cities) = true -> exists c, getitem cities i = Ok c)
        /\ ((i <? length complexes) = true ->
            exists a, getitem complexes i = Ok a)
        /\ ((i <? length cities) = false ->
            row_cells cities complexes i
            = rbind (if i <? length complexes
                     then getitem complexes i else Ok [])
                    (fun area => Ok ([], area)))
        /\ exists cells, row_cells cities complexes i = Ok cells).
Proof.
  pose proof (build_html_table_ok cities complexes) as E.
  split; [eexists; exact E|]. split; [intros e; rewrite E; discriminate|].
  intros i. split; [|split; [|split]].
  - intros H. apply Nat.ltb_lt in H. eexists. apply getitem_in_bounds, H.
  - intros H. apply Nat.ltb_lt in H. eexists. apply getitem_in_bounds, H.
  - intros H. unfold row_cells. rewrite H. reflexivity.
  - eexists. apply row_cells_ok.
Qed.

(* ================================================================== *)
(** ** Runs of the program *)
(* ================================================================== *)

Lemma raise_for_status_cases (r : response) :
  (raise_for_status r = Ok tt /\ ~ (400 <= status_code r < 600)%N)
  \/ (exists e, raise_for_status r = Raise e
                /\ is_RequestException e = true
                /\ (400 <= status_code r < 600)%N).
Proof.
  unfold raise_for_status.
  destruct ((400 <=? status_code r) && (status_code r <? 500))%N eqn:E4.
  - right. eexists. split; [reflexivity|]. split; [reflexivity|].
    apply andb_true_iff in E4. destruct E4 as [A B].
    apply N.leb_le in A. apply N.ltb_lt in B. lia.
  - destruct ((500 <=? status_code r) && (status_code r <? 600))%N eqn:E5.
    + right. eexists. split; [reflexivity|]. split; [reflexivity|].
      apply andb_true_iff in E5. destruct E5 as [A B].
      apply N.leb_le in A. apply N.ltb_lt in B. lia.
    + left. split; [reflexivity|]. intros [A B].
      apply andb_false_iff in E4. apply andb_false_iff in E5.
      rewrite !N.leb_gt, !N.ltb_ge in *. lia.
Qed.

(** What [fetch_housing_page] does from any state: one request, and then
    the parsed page or an exception. *)
Lemma fetch_housing_page_run (w : world) (url : str) (s : state) :
  fetch_housing_page w url s
  = (match requests_get w url HEADERS 15 with
     | HttpResponse r =>
         match raise_for_status r with
         | Ok _ => html_parser w (content r)
         | Raise e => Raise (fetch_error e)
         end
     | HttpRaises e =>
         if is_RequestException e then Raise (fetch_error e) else Raise e
     end,
     {| trace := trace s ++ [HttpGet url HEADERS 15];
        clock_reads := clock_reads s |}).
Proof.
  cbv beta iota delta
    [fetch_housing_page try_except bind get emit lift ret raise].
  destruct (requests_get w url HEADERS 15) as [r|e]; cbn [trace clock_reads].
  - destruct (raise_for_status_cases r) as [[E _] | (e & E & He & _)];
      rewrite E; [reflexivity|]. rewrite He. reflexivity.
  - destruct (is_RequestException e); reflexivity.
Qed.

Lemma fetch_housing_page_state (w : world) (url : str) (s s' : state)
  (r : result BeautifulSoup) :
  fetch_housing_page w url s = (r, s') ->
  s' = {| trace := trace s ++ [HttpGet url HEADERS 15];
          clock_reads := clock_reads s |}.
Proof.
  rewrite fetch_housing_page_run. intros [= _ <-]. reflexivity.
Qed.

Lemma utf8_encodable_app (a b : str) :
  utf8_encodable (a ++ b) = utf8_encodable a && utf8_encodable b.
Proof. apply forallb_app. Qed.

Lemma utf8_encode_error_none (s : str) :
  forall position,
    utf8_encodable s = true -> utf8_encode_error s position = None.
Proof.
  induction s as [|c s IH]; intros position H; [reflexivity|].
  cbn in H. apply andb_true_iff in H. destruct H as [Hc Hs].
  apply negb_true_iff in Hc. cbn [utf8_encode_error]. rewrite Hc.
  apply IH, Hs.
Qed.

Lemma utf8_encode_error_some (s : str) :
  forall position,
    utf8_encodable s = false ->
    exists e, utf8_encode_error s position = Some e
              /\ exn_type e = UnicodeEncodeError.
Proof.
  induction s as [|c s IH]; intros position H; [discriminate|].
  cbn in H. cbn [utf8_encode_error].
  destruct (is_surrogate c).
  - eexists. split; reflexivity.
  - apply IH, H.
Qed.

(** The fixed text around the table holds no surrogate. *)
Lemma utf8_encodable_email_body (html_table : str) :
  utf8_encodable (email_body html_table) = utf8_encodable html_table.
Proof.
  unfold email_body. rewrite !utf8_encodable_app.
  repeat match goal with
         | |- context [utf8_encodable (lit ?x)] =>
             change (utf8_encodable (lit x)) with true
         end.
  change (utf8_encodable nl) with true.
  change (utf8_encodable dq) with true.
  change (utf8_encodable URL) with true.
  cbn [andb]. apply andb_true_r.
Qed.

Lemma compose_message_built (w : world) (html_table : str) :
  utf8_encodable html_table = true ->
  compose_message w html_table
  = Ok (message_with w (lit "html", email_body html_table)).
Proof.
  intros H. unfold compose_message, MIMEText.
  rewrite utf8_encode_error_none; [reflexivity|].
  rewrite utf8_encodable_email_body. exact H.
Qed.

Lemma compose_message_fails (w : world) (html_table : str) :
  utf8_encodable html_table = false ->
  exists e, compose_message w html_table = Raise e
            /\ exn_type e = UnicodeEncodeError.
Proof.
  intros H. unfold compose_message, MIMEText.
  destruct (utf8_encode_error_some (email_body html_table) 0)
    as (e & E & He).
  - rewrite utf8_encodable_email_body. exact H.
  - exists e. rewrite E. split; [reflexivity | exact He].
Qed.

(** What [send_email_alert] does from any state when the message can be
    built: one session with the mail system, one reading of the clock, one
    line printed, and a normal return. *)
Lemma send_email_alert_run (w : world) (html_table : str) (s : state) :
  utf8_encodable html_table = true ->
  send_email_alert w html_table s
  = (Ok tt,
     {| trace :=
          trace s
          ++ [SmtpSession (alert_request w html_table);
              Print (strftime (clock w (clock_reads s))
                     ++ match smtp_server w (alert_request w html_table) with
                        | Delivered => lit " Email alert sent!"
                        | SmtpRaises _ e =>
                            lit " Failed to send email: " ++ exn_str e
                        end)];
        clock_reads := S (clock_reads s) |}).
Proof.
  intros H. unfold send_email_alert, bind at 1, lift.
  rewrite (compose_message_built w _ H).
  fold (alert_request w html_table).
  cbv beta iota delta
    [try_except bind smtp_session get_timestamp now print
     emit ret raise is_Exception].
  destruct (smtp_server w (alert_request w html_table)) as [|step e];
    cbn [trace clock_reads]; rewrite <- app_assoc; reflexivity.
Qed.


(** [main] after a successful fetch. *)
Lemma main_after_fetch (w : world) (soup : BeautifulSoup) (s1 : state) :
  fetch_housing_page w URL initial = (Ok soup, s1) ->
  run w
  = (if list_truthy (extract_options soup CITY_FIELD)
        || list_truthy (extract_options soup COMPLEX_FIELD)
     then
       bind (lift (build_html_table (extract_options soup CITY_FIELD)
                                    (extract_options soup COMPLEX_FIELD)))
            (send_email_alert w)
     else
       bind (get_timestamp w)
            (fun ts => print (ts ++ lit " No housing availability detected.")))
      s1.
Proof.
  intros H. unfold run, main, bind at 1. rewrite H. reflexivity.
Qed.

Lemma list_truthy_or {A} (a b : list A) :
  a <> [] \/ b <> [] -> list_truthy a || list_truthy b = true.
Proof.
  destruct a; destruct b; simpl; intros [H|H]; congruence.
Qed.



Lemma timestamped_line (dt : datetime) (message : str) :
  timestamped (strftime dt ++ lit " " ++ message) message.
Proof. exists dt. reflexivity. Qed.

Lemma utf8_encodable_join (sep : str) (lines : list str) :
  utf8_encodable sep = true ->
  forallb utf8_encodable lines = true ->
  utf8_encodable (join sep lines) = true.
Proof.
  intros Hsep. induction lines as [|l lines IH]; [reflexivity|].
  cbn [forallb]. intros H. apply andb_true_iff in H. destruct H as [Hl Hr].
  destruct lines as [|l' lines]; [exact Hl|].
  change (join sep (l :: l' :: lines)) with (l ++ sep ++ join sep (l' :: lines)).
  rewrite !utf8_encodable_app, Hl, Hsep, (IH Hr). reflexivity.
Qed.

Lemma utf8_encodable_nth (l : list str) (i : nat) :
  forallb utf8_encodable l = true -> utf8_encodable (nth i l []) = true.
Proof.
  intros H. destruct (Nat.lt_ge_cases i (length l)) as [Hi|Hi].
  - rewrite forallb_forall in H. apply H, nth_In, Hi.
  - rewrite nth_overflow by exact Hi. reflexivity.
Qed.

(** A table made of texts without surrogates has none. *)
Lemma utf8_encodable_table (cities complexes : list str) (table : str) :
  forallb utf8_encodable (cities ++ complexes) = true ->
  build_html_table cities complexes = Ok table ->
  utf8_encodable table = true.
Proof.
  rewrite forallb_app, andb_true_iff. intros [Hc Hx].
  rewrite build_html_table_ok. intros E.
  assert (E' : join nl
                 ([table_open; table_head; tbody_open]
                  ++ map render_row
                       (map (fun i => (nth i cities [], nth i complexes []))
                          (seq 0 (Nat.max (length cities) (length complexes))))
                  ++ [table_close]) = table) by congruence.
  rewrite <- E'. clear E E'.
  apply utf8_encodable_join; [reflexivity|].
  rewrite !forallb_app. cbn [forallb].
  change (utf8_encodable table_open) with true.
  change (utf8_encodable table_head) with true.
  change (utf8_encodable tbody_open) with true.
  change (utf8_encodable table_close) with true.
  cbn [andb]. rewrite andb_true_r.
  apply forallb_forall. intros line Hin.
  apply in_map_iff in Hin. destruct Hin as (cells & <- & Hin).
  apply in_map_iff in Hin. destruct Hin as (i & <- & _).
  unfold render_row. cbn [fst snd]. rewrite !utf8_encodable_app.
  rewrite (utf8_encodable_nth _ i Hc), (utf8_encodable_nth _ i Hx).
  reflexivity.
Qed.




(** C2: when both extracted lists are empty the run sends no mail and
    prints one line, the time stamp followed by the notice that no housing
    is available; then it ends normally. *)
Theorem main_no_availability (w : world) (soup : BeautifulSoup) (s1 : state) :
  fetch_housing_page w URL initial = (Ok soup, s1) ->
  extract_options soup CITY_FIELD = [] ->
  extract_options soup COMPLEX_FIELD = [] ->
  smtp_requests (trace (snd (run w))) = []
  /\ printed (trace (snd (run w)))
     = [strftime (clock w 0) ++ lit " No housing availability detected."]
  /\ timestamped (strftime (clock w 0)
                  ++ lit " No housing availability detected.")
                 (lit "No housing availability detected.")
  /\ fst (run w) = Ok tt.
Proof.
  intros Hfetch Ec Ex.
  pose proof (fetch_housing_page_state _ _ _ Hfetch) as Es1.
  rewrite (main_after_fetch _ Hfetch), Ec, Ex, Es1.
  repeat split. apply (timestamped_line (clock w 0)).
Qed.

Lemma main_no_availability_witness :
  smtp_requests (trace (snd (run Samples.quiet_world))) = []
  /\ printed (trace (snd (run Samples.quiet_world)))
     = [lit "[2025-09-07 12:00:05] No housing availability detected."]
  /\ fst (run Samples.quiet_world) = Ok tt.
Proof.
  destruct (@main_no_availability Samples.quiet_world Samples.empty_page
              {| trace := [HttpGet URL HEADERS 15]; clock_reads := 0 |}
              eq_refl eq_refl eq_refl) as (H1 & H2 & _ & H4).
  split; [exact H1|]. split; [exact H2 | exact H4].
Defined.

(** C6, as the code has it: when [requests.get] raises one of its
    exceptions, or the response has a status from 400 to 599,
    [fetch_housing_page] raises a [RuntimeError] whose text ends with the
    text of the cause and whose context is the cause; [main] does not catch
    it, so the run ends with that exception, having made the request and
    nothing else: no mail, no line printed. *)
Theorem fetch_failure_aborts (w : world) (cause : exn) :
  fetch_fails w cause ->
  fst (fetch_housing_page w URL initial) = Raise (fetch_error cause)
  /\ exn_type (fetch_error cause) = RuntimeError
  /\ exn_str (fetch_error cause) = lit "Failed to fetch page: " ++ exn_str cause
  /\ exn_context (fetch_error cause) = Some cause
  /\ fst (run w) = Raise (fetch_error cause)
  /\ smtp_requests (trace (snd (run w))) = []
  /\ trace (snd (run w)) = [HttpGet URL HEADERS 15].
Proof.
  intros Hfail.
  assert (E : fetch_housing_page w URL initial
              = (Raise (fetch_error cause),
                 {| trace := [HttpGet URL HEADERS 15]; clock_reads := 0 |})).
  { rewrite fetch_housing_page_run.
    destruct Hfail as [e Hget He | r e Hget _ Hst]; rewrite Hget.
    - rewrite He. reflexivity.
    - rewrite Hst. reflexivity. }
  assert (Erun : run w
                 = (Raise (fetch_error cause),
                    {| trace := [HttpGet URL HEADERS 15]; clock_reads := 0 |})).
  { unfold run, main, bind at 1. rewrite E. reflexivity. }
  rewrite E, Erun. repeat split.
Qed.

Lemma fetch_failure_aborts_witness :
  fst (run Samples.not_found_world)
  = Raise (Exn RuntimeError
             (lit "Failed to fetch page: 404 Client Error: Not Found for url: "
              ++ URL)
             (Some (Exn HTTPError
                      (lit "404 Client Error: Not Found for url: " ++ URL)
                      None)))
  /\ smtp_requests (trace (snd (run Samples.not_found_world))) = [].
Proof.
  destruct (@fetch_failure_aborts Samples.not_found_world
              (Exn HTTPError
                 (lit "404 Client Error: Not Found for url: " ++ URL) None))
    as (_ & _ & _ & _ & H5 & H6 & _).
  - apply (@error_status Samples.not_found_world Samples.not_found).
    + reflexivity.
    + cbn. lia.
    + reflexivity.
  - split; [exact H5 | exact H6].
Defined.

(** C6, as stated, fails: a response with status 300 is no 2xx response,
    yet [fetch_housing_page] returns the parsed page, the run ends
    normally and mail is sent. *)
Lemma status_300_is_no_failure :
  requests_get Samples.multiple_choices_world URL HEADERS 15
  = HttpResponse Samples.multiple_choices
  /\ status_code Samples.multiple_choices = 300%N
  /\ ~ (200 <= status_code Samples.multiple_choices < 300)%N
  /\ fst (fetch_housing_page Samples.multiple_choices_world URL initial)
     = Ok Samples.offers_page
  /\ fst (run Samples.multiple_choices_world) = Ok tt
  /\ length (smtp_requests (trace (snd (run Samples.multiple_choices_world))))
     = 1.
Proof.
  split; [reflexivity|]. split; [reflexivity|].
  split; [cbn; lia|]. repeat split; vm_compute; reflexivity.
Qed.



(* ================================================================== *)
(** ** Further properties of [extract_options] *)
(* ================================================================== *)

Lemma lstrip_fixed (c : N) (t : str) :
  isspace c = false -> lstrip (c :: t) = c :: t.
Proof. intros H. simpl. rewrite H. reflexivity. Qed.

Lemma lstrip_blank (s : str) : forallb isspace s = true -> lstrip s = [].
Proof.
  induction s as [|c s IH]; simpl; [reflexivity|].
  intros H. apply andb_true_iff in H. destruct H as [Hc Hs].
  rewrite Hc. apply IH, Hs.
Qed.

Lemma strip_blank (s : str) : forallb isspace s = true -> strip s = [].
Proof.
  intros H. unfold strip. rewrite lstrip_blank by exact H. reflexivity.
Qed.

Lemma strip_idempotent (s : str) : strip (strip s) = strip s.
Proof.
  destruct (strip s) as [|c t] eqn:E; [reflexivity|].
  pose proof (@strip_first _ _ _ E) as Hc.
  destruct (strip_ends s) as [E0 | (d & u & Er & Hd)];
    [rewrite E0 in E; discriminate|].
  rewrite E in Er.
  unfold strip at 1. rewrite lstrip_fixed by exact Hc. unfold rstrip.
  rewrite Er, lstrip_fixed by exact Hd. rewrite <- Er. apply rev_involutive.
Qed.

(** X1: what [extract_options] returns is trimmed: stripping an element
    again changes nothing, and its first character is no white space. *)
Theorem extract_options_trimmed (soup : BeautifulSoup) (field_name : str) :
  Forall (fun t => strip t = t
                   /\ exists c rest, t = c :: rest /\ isspace c = false)
         (extract_options soup field_name).
Proof.
  apply Forall_forall. intros t Ht.
  apply extract_options_In in Ht. destruct Ht as (Hin & Hne & _).
  unfold option_texts in Hin. apply in_map_iff in Hin.
  destruct Hin as (opt & <- & _). split; [apply strip_idempotent|].
  destruct (strip (text opt)) as [|c rest] eqn:E; [congruence|].
  exists c, rest. split; [reflexivity|]. exact (@strip_first _ _ _ E).
Qed.

(** X2: an option whose text is empty or made of white space only is left
    out: the result is the one the other selected options give. *)
Theorem blank_option_excluded (soup : BeautifulSoup) (field_name : str)
  (before : list node) (opt : node) (after : list node) :
  select soup (option_selector field_name) = before ++ opt :: after ->
  forallb isspace (text opt) = true ->
  extract_options soup field_name
  = filter keep_option (map (fun o => strip (text o)) (before ++ after)).
Proof.
  intros E Hblank. unfold extract_options, option_texts. rewrite E.
  rewrite !map_app, !filter_app. simpl.
  rewrite strip_blank by exact Hblank. reflexivity.
Qed.

Lemma blank_option_excluded_witness :
  extract_options Samples.offers_page CITY_FIELD
  = filter keep_option
      (map (fun o => strip (text o))
         ([Samples.option_tag [] "All";
           Samples.option_tag [] "  Dortmund "]
          ++ [Samples.option_tag [] "  All ";
              Samples.option_tag [] "Hagen";
              Samples.option_tag [] "Dortmund"])).
Proof.
  apply (@blank_option_excluded Samples.offers_page CITY_FIELD
           [Samples.option_tag [] "All"; Samples.option_tag [] "  Dortmund "]
           (Samples.option_tag [] "   ")
           [Samples.option_tag [] "  All "; Samples.option_tag [] "Hagen";
            Samples.option_tag [] "Dortmund"]);
    reflexivity.
Defined.





Lemma filter_descendants_unmatched (sel : selector) (p q : option node)
  (n : node) :
  (let (pc, _) := sel in match_parent pc p = false /\ match_parent pc q = false) ->
  filter (match_selector sel) (descendants p n)
  = filter (match_selector sel) (descendants q n).
Proof.
  destruct sel as [pc cc]. intros [Hp Hq].
  destruct n; simpl; rewrite Hp, Hq; reflexivity.
Qed.

Lemma filter_flat_map_unmatched (sel : selector) (p q : option node)
  (l : list node) :
  (let (pc, _) := sel in match_parent pc p = false /\ match_parent pc q = false) ->
  filter (match_selector sel) (flat_map (descendants p) l)
  = filter (match_selector sel) (flat_map (descendants q) l).
Proof.
  intros H. induction l as [|c l IH]; [reflexivity|].
  cbn [flat_map]. rewrite !filter_app, IH.
  rewrite (filter_descendants_unmatched sel p q c H). reflexivity.
Qed.

(** X5: where the select sits does not matter: for a field name that
    stands for itself in the selector text, wrapping a document in a tag
    that the selector does not take for a select of that name leaves the
    result unchanged. *)
Theorem extract_options_wrapped (name : str) (attrs : list (str * str))
  (soup : BeautifulSoup) (field_name : str) :
  css_plain field_name = true ->
  match_compound (option_selector_parent field_name) (Tag name attrs soup)
  = false ->
  extract_options [Tag name attrs soup] field_name
  = extract_options soup field_name.
Proof.
  intros _ Hw. unfold extract_options, option_texts. do 2 f_equal.
  unfold select, document_order. f_equal.
  cbn [flat_map descendants]. rewrite app_nil_r.
  cbn [filter match_selector option_selector fst match_parent andb].
  apply filter_flat_map_unmatched. cbn. split; [exact Hw | reflexivity].
Qed.

Lemma extract_options_wrapped_witness :
  extract_options [Tag (lit "form") [(lit "name", CITY_FIELD)]
                       Samples.offers_page] CITY_FIELD
  = extract_options Samples.offers_page CITY_FIELD.
Proof.
  apply (@extract_options_wrapped (lit "form") [(lit "name", CITY_FIELD)]
           Samples.offers_page CITY_FIELD); reflexivity.
Defined.

(* ================================================================== *)
(** ** Further properties of [build_html_table] *)
(* ================================================================== *)

Lemma map_const_seq {A} (d : A) (k a : nat) :
  map (fun _ => d) (seq a k) = repeat d k.
Proof.
  revert a; induction k as [|k IH]; intros a; simpl; [reflexivity|].
  rewrite IH. reflexivity.
Qed.

(** Reading a list at the indices [0 .. len + k - 1] with a default gives
    the list followed by [k] defaults. *)
Lemma map_nth_seq_padded {A} (d : A) (l : list A) (k : nat) :
  map (fun i => nth i l d) (seq 0 (length l + k)) = l ++ repeat d k.
Proof.
  induction l as [|x l IH]; simpl.
  - rewrite <- (map_const_seq d k 0). apply map_ext. intros [|i]; reflexivity.
  - f_equal. rewrite <- seq_shift, map_map. exact IH.
Qed.

(** X6: the two columns of the table are the two lists, each followed by as
    many empty cells as it is shorter than the other: no value is dropped,
    repeated or moved. *)
Theorem build_html_lines_columns (cities complexes : list str) :
  exists rows : list (str * str),
    build_html_lines cities complexes
    = Ok ([table_open; table_head; tbody_open] ++ map render_row rows
          ++ [table_close])
    /\ map fst rows
       = cities ++ repeat [] (length complexes - length cities)
    /\ map snd rows
       = complexes ++ repeat [] (length cities - length complexes).
Proof.
  eexists. split; [apply build_html_lines_ok|].
  rewrite !map_map. cbn [fst snd]. split.
  - replace (Nat.max (length cities) (length complexes))
      with (length cities + (length complexes - length cities)) by lia.
    apply map_nth_seq_padded.
  - replace (Nat.max (length cities) (length complexes))
      with (length complexes + (length cities - length complexes)) by lia.
    apply map_nth_seq_padded.
Qed.

Lemma contains_refl (s : str) : contains s s.
Proof. exists [], []. rewrite app_nil_r. reflexivity. Qed.

Lemma contains_trans (a b c : str) :
  contains a b -> contains b c -> contains a c.
Proof.
  intros (p1 & q1 & ->) (p2 & q2 & ->).
  exists (p2 ++ p1), (q1 ++ q2). rewrite <- !app_assoc. reflexivity.
Qed.

Lemma contains_join (sep x : str) (l : list str) :
  In x l -> contains x (join sep l).
Proof.
  induction l as [|y l IH]; [intros []|].
  intros [-> | Hin].
  - destruct l as [|z l]; [apply contains_refl|].
    exists [], (sep ++ join sep (z :: l)). reflexivity.
  - destruct l as [|z l]; [destruct Hin|].
    destruct (IH Hin) as (p & q & E).
    exists (y ++ sep ++ p), q.
    change (join sep (y :: z :: l)) with (y ++ sep ++ join sep (z :: l)).
    rewrite E, <- !app_assoc. reflexivity.
Qed.

Lemma contains_render_row (cells : str * str) :
  contains (fst cells) (render_row cells)
  /\ contains (snd cells) (render_row cells).
Proof.
  unfold render_row. split.
  - exists (lit "<tr><td>"), (lit "</td><td>" ++ snd cells ++ lit "</td></tr>").
    reflexivity.
  - exists (lit "<tr><td>" ++ fst cells ++ lit "</td><td>"), (lit "</td></tr>").
    rewrite <- !app_assoc. reflexivity.
Qed.

(** X7: cell contents go into the table as they are, without any escaping:
    every element of either list occurs verbatim in the string returned,
    markup characters included. *)
Theorem build_html_table_verbatim (cities complexes : list str) (c : str) :
  In c cities \/ In c complexes ->
  exists table,
    build_html_table cities complexes = Ok table /\ contains c table.
Proof.
  intros Hin. eexists. split; [apply build_html_table_ok|].
  set (n := Nat.max (length cities) (length complexes)).
  assert (Hrow : exists i, i < n
                   /\ (nth i cities [] = c \/ nth i complexes [] = c)).
  { destruct Hin as [H|H]; apply (In_nth _ _ ([] : str)) in H;
      destruct H as (i & Hi & E); exists i.
    - split; [|left; exact E].
      apply Nat.lt_le_trans with (length cities);
        [exact Hi | apply Nat.le_max_l].
    - split; [|right; exact E].
      apply Nat.lt_le_trans with (length complexes);
        [exact Hi | apply Nat.le_max_r]. }
  destruct Hrow as (i & Hi & E).
  apply contains_trans
    with (render_row (nth i cities [], nth i complexes [])).
  - destruct (contains_render_row (nth i cities [], nth i complexes []))
      as [Hf Hs]. cbn [fst snd] in Hf, Hs.
    destruct E as [<- | <-]; assumption.
  - apply contains_join. apply in_or_app. right. apply in_or_app. left.
    apply in_map, in_map_iff. exists i. split; [reflexivity|].
    apply in_seq. split; [apply Nat.le_0_l | exact Hi].
Qed.

Lemma build_html_table_verbatim_witness :
  exists table,
    build_html_table [lit "<b>Dortmund</b> & Hagen"] [] = Ok table
    /\ contains (lit "<b>Dortmund</b> & Hagen") table.
Proof.
  apply (@build_html_table_verbatim [lit "<b>Dortmund</b> & Hagen"] []
           (lit "<b>Dortmund</b> & Hagen")).
  left. left. reflexivity.
Defined.

(** X8: in the table built from two extracted lists an empty cell always
    means that the list has run out at that row: a cell of row [i] is empty
    exactly when [i] is not below the length of its list. *)
Theorem extracted_cell_empty_iff (soup : BeautifulSoup)
  (city_field complex_field : str) (i : nat) (city area : str) :
  row_cells (extract_options soup city_field)
            (extract_options soup complex_field) i = Ok (city, area) ->
  (city = [] <-> length (extract_options soup city_field) <= i)
  /\ (area = [] <-> length (extract_options soup complex_field) <= i).
Proof.
  rewrite row_cells_ok. intros [= <- <-].
  assert (H : forall f, nth i (extract_options soup f) [] = []
                        <-> length (extract_options soup f) <= i).
  { intros f. split.
    - intros E. destruct (Nat.le_gt_cases (length (extract_options soup f)) i)
        as [Hle|Hlt]; [exact Hle|exfalso].
      assert (Hin : In (nth i (extract_options soup f) [])
                       (extract_options soup f))
        by (apply nth_In; exact Hlt).
      rewrite E in Hin.
      apply extract_options_In in Hin. destruct Hin as (_ & Hne & _).
      apply Hne; reflexivity.
    - intros Hle. apply nth_overflow, Hle. }
  split; apply H.
Qed.

Lemma extracted_cell_empty_iff_witness :
  (lit "Hagen" = []
   <-> length (extract_options Samples.offers_page CITY_FIELD) <= 1)
  /\ (([] : str) = []
      <-> length (extract_options Samples.offers_page COMPLEX_FIELD) <= 1).
Proof.
  apply (@extracted_cell_empty_iff Samples.offers_page CITY_FIELD
           COMPLEX_FIELD 1 (lit "Hagen") []).
  reflexivity.
Defined.

(* ================================================================== *)
(** ** Further properties of the effectful functions *)
(* ================================================================== *)

(** X9: whatever the outcome, [fetch_housing_page] makes exactly one
    request, to the URL it is given, with the fixed headers and a time-out
    of 15 seconds; it never retries, prints nothing and does not read the
    clock. *)
Theorem fetch_makes_one_request (w : world) (url : str) (s : state) :
  trace (snd (fetch_housing_page w url s))
  = trace s ++ [HttpGet url HEADERS 15]
  /\ printed (trace (snd (fetch_housing_page w url s))) = printed (trace s)
  /\ smtp_requests (trace (snd (fetch_housing_page w url s)))
     = smtp_requests (trace s)
  /\ clock_reads (snd (fetch_housing_page w url s)) = clock_reads s.
Proof.
  rewrite fetch_housing_page_run. cbn [snd trace clock_reads].
  unfold printed, smtp_requests. rewrite !flat_map_app. cbn [flat_map].
  rewrite !app_nil_r. repeat split.
Qed.

(** X10: [fetch_housing_page] returns a page exactly when [requests.get]
    returns a response whose status is outside 400..599 and the parser
    accepts the response body; the page is then the parse of that body. *)
Theorem fetch_success_iff (w : world) (url : str) (s : state)
  (soup : BeautifulSoup) :
  fst (fetch_housing_page w url s) = Ok soup <->
  exists r, requests_get w url HEADERS 15 = HttpResponse r
            /\ ~ (400 <= status_code r < 600)%N
            /\ html_parser w (content r) = Ok soup.
Proof.
  rewrite fetch_housing_page_run. cbn [fst]. split.
  - destruct (requests_get w url HEADERS 15) as [r|e].
    + destruct (raise_for_status_cases r) as [[E Hst] | (e & E & _ & _)];
        rewrite E; [|discriminate].
      intros Hp. exists r. repeat split; assumption.
    + destruct (is_RequestException e); discriminate.
  - intros (r & -> & Hst & Hp).
    destruct (raise_for_status_cases r) as [[E _] | (e & _ & _ & Hbad)];
      [rewrite E; exact Hp | contradiction].
Qed.

(** X11: only the exceptions of [requests] are wrapped: any other exception
    raised by the request leaves [fetch_housing_page], and then [main],
    unchanged, and the run does nothing further. *)
Theorem foreign_exception_not_wrapped (w : world) (e : exn) :
  requests_get w URL HEADERS 15 = HttpRaises e ->
  is_RequestException e = false ->
  fst (fetch_housing_page w URL initial) = Raise e
  /\ fst (run w) = Raise e
  /\ trace (snd (run w)) = [HttpGet URL HEADERS 15].
Proof.
  intros Hget He.
  assert (E : fetch_housing_page w URL initial
              = (Raise e,
                 {| trace := [HttpGet URL HEADERS 15]; clock_reads := 0 |})).
  { rewrite fetch_housing_page_run, Hget, He. reflexivity. }
  assert (Erun : run w
                 = (Raise e,
                    {| trace := [HttpGet URL HEADERS 15]; clock_reads := 0 |})).
  { unfold run, main, bind at 1. rewrite E. reflexivity. }
  rewrite E, Erun. repeat split.
Qed.

Lemma foreign_exception_not_wrapped_witness :
  fst (run (Samples.world_of
              (HttpRaises (Exn OSError (lit "Too many open files") None))
              Samples.offers_page Delivered))
  = Raise (Exn OSError (lit "Too many open files") None).
Proof.
  destruct (@foreign_exception_not_wrapped
              (Samples.world_of
                 (HttpRaises (Exn OSError (lit "Too many open files") None))
                 Samples.offers_page Delivered)
              (Exn OSError (lit "Too many open files") None)
              eq_refl eq_refl) as (_ & H & _).
  exact H.
Defined.


(** The four ways a run can go. *)
Lemma run_cases (w : world) :
  let s1 := {| trace := [HttpGet URL HEADERS 15]; clock_reads := 0 |} in
  (exists e,
      fetch_housing_page w URL initial = (Raise e, s1)
      /\ run w = (Raise e, s1))
  \/ (exists soup,
        fetch_housing_page w URL initial = (Ok soup, s1)
        /\ extract_options soup CITY_FIELD = []
        /\ extract_options soup COMPLEX_FIELD = []
        /\ run w
           = (Ok tt,
              {| trace :=
                   [HttpGet URL HEADERS 15;
                    Print (strftime (clock w 0)
                           ++ lit " No housing availability detected.")];
                 clock_reads := 1 |}))
  \/ (exists soup table,
        fetch_housing_page w URL initial = (Ok soup, s1)
        /\ (extract_options soup CITY_FIELD <> []
            \/ extract_options soup COMPLEX_FIELD <> [])
        /\ build_html_table (extract_options soup CITY_FIELD)
                            (extract_options soup COMPLEX_FIELD) = Ok table
        /\ utf8_encodable table = true
        /\ run w
           = (Ok tt,
              {| trace :=
                   [HttpGet URL HEADERS 15;
                    SmtpSession (alert_request w table);
                    Print (strftime (clock w 0)
                           ++ match smtp_server w (alert_request w table) with
                              | Delivered => lit " Email alert sent!"
                              | SmtpRaises _ e =>
                                  lit " Failed to send email: " ++ exn_str e
                              end)];
                 clock_reads := 1 |}))
  \/ (exists soup table e,
        fetch_housing_page w URL initial = (Ok soup, s1)
        /\ (extract_options soup CITY_FIELD <> []
            \/ extract_options soup COMPLEX_FIELD <> [])
        /\ build_html_table (extract_options soup CITY_FIELD)
                            (extract_options soup COMPLEX_FIELD) = Ok table
        /\ utf8_encodable table = false
        /\ compose_message w table = Raise e
        /\ exn_type e = UnicodeEncodeError
        /\ run w = (Raise e, s1)).
Proof.
  intros s1.
  destruct (fetch_housing_page w URL initial) as [r s'] eqn:Hfetch.
  pose proof (fetch_housing_page_state _ _ _ Hfetch) as Es.
  cbn in Es. fold s1 in Es. subst s'.
  destruct r as [soup|e].
  - right. rewrite (main_after_fetch _ Hfetch).
    assert (Hsend :
      extract_options soup CITY_FIELD <> []
      \/ extract_options soup COMPLEX_FIELD <> [] ->
      (exists table,
          build_html_table (extract_options soup CITY_FIELD)
                           (extract_options soup COMPLEX_FIELD) = Ok table
          /\ utf8_encodable table = true
          /\ bind (lift (build_html_table (extract_options soup CITY_FIELD)
                           (extract_options soup COMPLEX_FIELD)))
                  (send_email_alert w) s1
             = (Ok tt,
                {| trace :=
                     [HttpGet URL HEADERS 15;
                      SmtpSession (alert_request w table);
                      Print (strftime (clock w 0)
                             ++ match smtp_server w (alert_request w table) with
                                | Delivered => lit " Email alert sent!"
                                | SmtpRaises _ e =>
                                    lit " Failed to send email: " ++ exn_str e
                                end)];
                   clock_reads := 1 |}))
      \/ (exists table e,
            build_html_table (extract_options soup CITY_FIELD)
                             (extract_options soup COMPLEX_FIELD) = Ok table
            /\ utf8_encodable table = false
            /\ compose_message w table = Raise e
            /\ exn_type e = UnicodeEncodeError
            /\ bind (lift (build_html_table (extract_options soup CITY_FIELD)
                             (extract_options soup COMPLEX_FIELD)))
                    (send_email_alert w) s1
               = (Raise e, s1))).
    { intros _. unfold bind, lift. rewrite build_html_table_ok.
      set (table := join nl _).
      destruct (utf8_encodable table) eqn:Henc.
      - left. exists table. split; [reflexivity|]. split; [exact Henc|].
        rewrite (@send_email_alert_run w table s1 Henc). reflexivity.
      - right. destruct (compose_message_fails w _ Henc) as (e & E & He).
        exists table, e. split; [reflexivity|]. split; [exact Henc|].
        split; [exact E|]. split; [exact He|].
        unfold send_email_alert, bind at 1, lift. rewrite E. reflexivity. }
    assert (Hcase :
      (extract_options soup CITY_FIELD = []
       /\ extract_options soup COMPLEX_FIELD = [])
      \/ (extract_options soup CITY_FIELD <> []
          \/ extract_options soup COMPLEX_FIELD <> [])).
    { destruct (extract_options soup CITY_FIELD);
        [|right; left; discriminate].
      destruct (extract_options soup COMPLEX_FIELD);
        [left; split; reflexivity | right; right; discriminate]. }
    destruct Hcase as [[Ec Ex] | Hne].
    + left. exists soup. split; [reflexivity|]. split; [exact Ec|].
      split; [exact Ex|]. rewrite Ec, Ex. reflexivity.
    + right. rewrite (list_truthy_or Hne).
      destruct (Hsend Hne) as [(table & H1 & H2 & H3)
                              | (table & e & H1 & H2 & H3 & H4 & H5)].
      * left. exists soup, table. split; [reflexivity|].
        split; [exact Hne|]. split; [exact H1|]. split; [exact H2|].
        exact H3.
      * right. exists soup, table, e. split; [reflexivity|].
        split; [exact Hne|]. split; [exact H1|]. split; [exact H2|].
        split; [exact H3|]. split; [exact H4|]. exact H5.
  - left. exists e. split; [reflexivity|].
    unfold run, main, bind at 1. rewrite Hfetch. reflexivity.
Qed.



(** X14: every run starts with the one HTTP request and makes no other; it
    holds at most one SMTP session; a run that ends normally has printed
    exactly one line, a run that raises has printed nothing and sent
    nothing; and every printed line starts with a time stamp. *)
Theorem run_trace_shape (w : world) :
  (exists rest,
      trace (snd (run w)) = HttpGet URL HEADERS 15 :: rest
      /\ forall url headers timeout, ~ In (HttpGet url headers timeout) rest)
  /\ length (smtp_requests (trace (snd (run w)))) <= 1
  /\ match fst (run w) with
     | Ok _ => length (printed (trace (snd (run w)))) = 1
     | Raise _ => printed (trace (snd (run w))) = []
                  /\ smtp_requests (trace (snd (run w))) = []
     end
  /\ forall line, In line (printed (trace (snd (run w)))) ->
                  exists message, timestamped line message.
Proof.
  destruct (run_cases w)
    as [(e & _ & Hr) | [(soup & _ & _ & _ & Hr)
       | [(soup & table & _ & _ & _ & _ & Hr)
         | (soup & table & e & _ & _ & _ & _ & _ & _ & Hr)]]];
    rewrite Hr; cbn [fst snd trace printed smtp_requests flat_map app length].
  - split; [exists []; split; [reflexivity | intros ? ? ? []]|].
    split; [apply Nat.le_0_l|]. split; [split; reflexivity | intros ? []].
  - split.
    { eexists; split; [reflexivity|]. intros ? ? ? [H|[]]; discriminate. }
    split; [apply Nat.le_0_l|]. split; [reflexivity|].
    intros line [<-|[]]. eexists. apply (timestamped_line (clock w 0)).
  - split.
    { eexists; split; [reflexivity|].
      intros ? ? ? [H|[H|[]]]; discriminate. }
    split; [apply Nat.le_refl|]. split; [reflexivity|].
    intros line [<-|[]].
    destruct (smtp_server w (alert_request w table)) as [|step e];
      eexists; apply (timestamped_line (clock w 0)).
  - split; [exists []; split; [reflexivity | intros ? ? ? []]|].
    split; [apply Nat.le_0_l|]. split; [split; reflexivity | intros ? []].
Qed.

(** X15: after a successful fetch that yields no text with a surrogate code
    point, an SMTP session is opened exactly when one of the two extracted
    lists is not empty. *)
Theorem alert_iff_availability (w : world) (soup : BeautifulSoup)
  (s1 : state) :
  fetch_housing_page w URL initial = (Ok soup, s1) ->
  forallb utf8_encodable (extract_options soup CITY_FIELD
                          ++ extract_options soup COMPLEX_FIELD) = true ->
  (smtp_requests (trace (snd (run w))) <> []
   <-> extract_options soup CITY_FIELD <> []
       \/ extract_options soup COMPLEX_FIELD <> []).
Proof.
  intros Hfetch Henc.
  destruct (run_cases w)
    as [(e & Hf & _) | [(soup' & Hf & Ec & Ex & Hr)
       | [(soup' & table & Hf & Hne & _ & _ & Hr)
         | (soup' & table & e & Hf & _ & Et & Hbad & _)]]];
    rewrite Hfetch in Hf.
  - discriminate.
  - injection Hf as <- _. rewrite Hr, Ec, Ex. cbn. split.
    + intros H. exfalso. apply H. reflexivity.
    + intros [H|H]; exfalso; apply H; reflexivity.
  - injection Hf as <- _. rewrite Hr. cbn. split.
    + intros _. exact Hne.
    + intros _. discriminate.
  - injection Hf as <- _.
    rewrite (utf8_encodable_table _ _ Henc Et) in Hbad. discriminate.
Qed.

Lemma alert_iff_availability_witness :
  (smtp_requests (trace (snd (run Samples.quiet_world))) <> []
   <-> extract_options Samples.empty_page CITY_FIELD <> []
       \/ extract_options Samples.empty_page COMPLEX_FIELD <> [])
  /\ (smtp_requests (trace (snd (run Samples.offers_world))) <> []
      <-> extract_options Samples.offers_page CITY_FIELD <> []
          \/ extract_options Samples.offers_page COMPLEX_FIELD <> []).
Proof.
  split.
  - apply (@alert_iff_availability Samples.quiet_world Samples.empty_page
             {| trace := [HttpGet URL HEADERS 15]; clock_reads := 0 |});
      reflexivity.
  - apply (@alert_iff_availability Samples.offers_world Samples.offers_page
             {| trace := [HttpGet URL HEADERS 15]; clock_reads := 0 |});
      reflexivity.
Defined.

(* ================================================================== *)
(** ** Time stamps *)
(* ================================================================== *)

Lemma zero_pad_2 (n : N) :
  (n < 100)%N -> length (zero_pad 2 n) = 2 /\ undigits (zero_pad 2 n) = n.
Proof.
  intros H.
  assert (E : forallb
                (fun k => (length (zero_pad 2 (N.of_nat k)) =? 2)
                          && (undigits (zero_pad 2 (N.of_nat k))
                              =? N.of_nat k)%N)
                (seq 0 100) = true) by (vm_compute; reflexivity).
  rewrite forallb_forall in E. specialize (E (N.to_nat n)).
  rewrite N2Nat.id in E.
  assert (Hin : In (N.to_nat n) (seq 0 100)) by (apply in_seq; lia).
  apply E in Hin. apply andb_true_iff in Hin. destruct Hin as [A B].
  split; [apply Nat.eqb_eq, A | apply N.eqb_eq, B].
Qed.

Lemma dec_4 (n : N) :
  (1000 <= n <= 9999)%N -> length (dec n) = 4 /\ undigits (dec n) = n.
Proof.
  intros H.
  assert (E : forallb
                (fun k => (length (dec (N.of_nat k)) =? 4)
                          && (undigits (dec (N.of_nat k)) =? N.of_nat k)%N)
                (seq 1000 (90 * 100)) = true) by (vm_compute; reflexivity).
  rewrite forallb_forall in E. specialize (E (N.to_nat n)).
  rewrite N2Nat.id in E.
  assert (Hin : In (N.to_nat n) (seq 1000 (90 * 100)))
    by (apply in_seq; lia).
  apply E in Hin. apply andb_true_iff in Hin. destruct Hin as [A B].
  split; [apply Nat.eqb_eq, A | apply N.eqb_eq, B].
Qed.

Lemma app_inv_length {A} (a a' b b' : list A) :
  length a = length a' -> a ++ b = a' ++ b' -> a = a' /\ b = b'.
Proof.
  revert a'; induction a as [|x a IH]; intros [|y a'] Hl E;
    try discriminate; [split; [reflexivity | exact E]|].
  injection Hl as Hl. injection E as -> E.
  destruct (IH a' Hl E) as [-> ->]. split; reflexivity.
Qed.

(** X16: for a date with a four-digit year the time stamp is 21 characters
    long, an opening bracket, 19 characters and a closing bracket. *)
Theorem strftime_fixed_width (dt : datetime) :
  four_digit_year dt ->
  length (strftime dt) = 21
  /\ exists body, strftime dt = lit "[" ++ body ++ lit "]"
                  /\ length body = 19.
Proof.
  intros (Hy & Hm & Hd & Hh & Hmi & Hs).
  assert (Ly : length (dec (year dt)) = 4) by (apply dec_4; lia).
  assert (Lm : length (zero_pad 2 (month dt)) = 2) by (apply zero_pad_2; lia).
  assert (Ld : length (zero_pad 2 (day dt)) = 2) by (apply zero_pad_2; lia).
  assert (Lh : length (zero_pad 2 (hour dt)) = 2) by (apply zero_pad_2; lia).
  assert (Lmi : length (zero_pad 2 (minute dt)) = 2)
    by (apply zero_pad_2; lia).
  assert (Ls : length (zero_pad 2 (second dt)) = 2)
    by (apply zero_pad_2; lia).
  split.
  - unfold strftime. rewrite !length_app, Ly, Lm, Ld, Lh, Lmi, Ls.
    reflexivity.
  - exists (dec (year dt) ++ lit "-" ++ zero_pad 2 (month dt)
            ++ lit "-" ++ zero_pad 2 (day dt) ++ lit " "
            ++ zero_pad 2 (hour dt) ++ lit ":" ++ zero_pad 2 (minute dt)
            ++ lit ":" ++ zero_pad 2 (second dt)).
    split.
    + unfold strftime. rewrite <- !app_assoc. reflexivity.
    + rewrite !length_app, Ly, Lm, Ld, Lh, Lmi, Ls. reflexivity.
Qed.

Lemma strftime_fixed_width_witness :
  length (strftime Samples.noon) = 21
  /\ exists body, strftime Samples.noon = lit "[" ++ body ++ lit "]"
                  /\ length body = 19.
Proof.
  apply (@strftime_fixed_width Samples.noon).
  unfold four_digit_year. cbn. lia.
Defined.

(** X17: the time stamp determines the time to the second and no further:
    two dates with four-digit years and the same stamp have the same year,
    month, day, hour, minute and second; their microseconds may differ. *)
Theorem strftime_to_the_second (dt1 dt2 : datetime) :
  four_digit_year dt1 -> four_digit_year dt2 ->
  strftime dt1 = strftime dt2 ->
  year dt1 = year dt2 /\ month dt1 = month dt2 /\ day dt1 = day dt2
  /\ hour dt1 = hour dt2 /\ minute dt1 = minute dt2
  /\ second dt1 = second dt2.
Proof.
  intros (Hy1 & Hm1 & Hd1 & Hh1 & Hmi1 & Hs1)
         (Hy2 & Hm2 & Hd2 & Hh2 & Hmi2 & Hs2) E.
  assert (P4 : forall n, (1000 <= n <= 9999)%N ->
                 length (dec n) = 4 /\ undigits (dec n) = n)
    by (intros n Hn; apply dec_4; lia).
  assert (P2 : forall n, (n <= 59)%N ->
                 length (zero_pad 2 n) = 2 /\ undigits (zero_pad 2 n) = n)
    by (intros n Hn; apply zero_pad_2; lia).
  unfold strftime in E.
  apply app_inv_head in E.
  apply app_inv_length in E;
    [|rewrite (proj1 (P4 (year dt1) ltac:(lia))),
        (proj1 (P4 (year dt2) ltac:(lia))); reflexivity].
  destruct E as [Ey E]. apply app_inv_head in E.
  apply app_inv_length in E;
    [|rewrite (proj1 (P2 (month dt1) ltac:(lia))),
        (proj1 (P2 (month dt2) ltac:(lia))); reflexivity].
  destruct E as [Em E]. apply app_inv_head in E.
  apply app_inv_length in E;
    [|rewrite (proj1 (P2 (day dt1) ltac:(lia))),
        (proj1 (P2 (day dt2) ltac:(lia))); reflexivity].
  destruct E as [Ed E]. apply app_inv_head in E.
  apply app_inv_length in E;
    [|rewrite (proj1 (P2 (hour dt1) ltac:(lia))),
        (proj1 (P2 (hour dt2) ltac:(lia))); reflexivity].
  destruct E as [Eh E]. apply app_inv_head in E.
  apply app_inv_length in E;
    [|rewrite (proj1 (P2 (minute dt1) ltac:(lia))),
        (proj1 (P2 (minute dt2) ltac:(lia))); reflexivity].
  destruct E as [Emi E]. apply app_inv_head in E.
  apply app_inv_tail in E.
  apply (f_equal undigits) in Ey, Em, Ed, Eh, Emi, E.
  rewrite (proj2 (P4 (year dt1) ltac:(lia))),
    (proj2 (P4 (year dt2) ltac:(lia))) in Ey.
  rewrite (proj2 (P2 (month dt1) ltac:(lia))),
    (proj2 (P2 (month dt2) ltac:(lia))) in Em.
  rewrite (proj2 (P2 (day dt1) ltac:(lia))),
    (proj2 (P2 (day dt2) ltac:(lia))) in Ed.
  rewrite (proj2 (P2 (hour dt1) ltac:(lia))),
    (proj2 (P2 (hour dt2) ltac:(lia))) in Eh.
  rewrite (proj2 (P2 (minute dt1) ltac:(lia))),
    (proj2 (P2 (minute dt2) ltac:(lia))) in Emi.
  rewrite (proj2 (P2 (second dt1) ltac:(lia))),
    (proj2 (P2 (second dt2) ltac:(lia))) in E.
  repeat split; assumption.
Qed.

Lemma strftime_to_the_second_witness :
  Samples.noon <> Samples.noon_and_a_quarter
  /\ strftime Samples.noon = strftime Samples.noon_and_a_quarter
  /\ (year Samples.noon = year Samples.noon_and_a_quarter
      /\ month Samples.noon = month Samples.noon_and_a_quarter
      /\ day Samples.noon = day Samples.noon_and_a_quarter
      /\ hour Samples.noon = hour Samples.noon_and_a_quarter
      /\ minute Samples.noon = minute Samples.noon_and_a_quarter
      /\ second Samples.noon = second Samples.noon_and_a_quarter).
Proof.
  split; [discriminate|]. split; [reflexivity|].
  apply (@strftime_to_the_second Samples.noon Samples.noon_and_a_quarter).
  - unfold four_digit_year. cbn. lia.
  - unfold four_digit_year. cbn. lia.
  - reflexivity.
Defined.
